(** * Hawaiian font catalog backend: the visual font analysis engine

    A shallow embedding of [font-scanner.js] (class [HawaiianFontScanner])
    and of the scanning part of the Express server that drives it
    (the [POST /api/scan/start] handler, [scanFontsAsync], [insertScanResult]
    and the scheduled incremental scan), with the properties of the
    specification stated and settled over it.

    Conventions.
    - JavaScript numbers that the code uses as integers are [Z]; a buffer
      is a [list byte]; a string is a [string] (UTF-8 bytes).
    - An object whose keys may be absent is a record of [option] fields;
      [None] is JavaScript's [undefined].
    - Awaited calls into the rendering engine, the font directory and the
      stored procedure may reject.  What they answer is read from an
      oracle ([Env]); a rejected call is an exception carrying
      [error.message].  [try]/[catch]/[finally] are combinators of a
      state-and-exception monad. *)

From Corelib Require PrimFloat.
From Stdlib Require Import ZArith Uint63.
From Stdlib.Strings Require Import Byte.
From stdpp Require Import gmap strings list fin_maps pretty sorting.

#[local] Open Scope Z_scope.

(** ** JavaScript values and operators used by the code *)

Module JS.

#[global] Instance byte_eq_dec : EqDecision byte.
Proof.
  intros x y. destruct (Byte.eqb x y) eqn:E.
  - left. by apply Byte.byte_dec_bl.
  - right. intros ->. by rewrite Byte.byte_dec_lb in E.
Defined.

(** A Node.js [Buffer]: [buf.length] is [length buf], [buf[i]] is
    [buf !! i], which is [undefined] ([None]) out of range. *)
Definition Buffer : Type := list byte.

(** [x !== y] on two buffer reads. *)
Definition strict_neq (x y : option byte) : bool := bool_decide (x ≠ y).

(** Truthiness of a number and of a string. *)
Definition truthy (z : Z) : bool := negb (z =? 0).
Definition truthy_str (s : string) : bool := negb (String.eqb s EmptyString).

(** [o || d] where [o] is a number or [undefined]/[null]. *)
Definition or_default (o : option Z) (d : Z) : Z :=
  match o with
  | Some z => if truthy z then z else d
  | None => d
  end.

(** [!o] where [o] is a string or [undefined]. *)
Definition not_str (o : option string) : bool :=
  match o with
  | Some s => negb (truthy_str s)
  | None => true
  end.

(** [Array.prototype.slice(start, end)] with integer arguments;
    [end = None] is an omitted [end]. *)
Definition clamp_index (len : Z) (k : Z) : Z :=
  if k <? 0 then Z.max (len + k) 0 else Z.min k len.

Definition slice {A} (l : list A) (start : Z) (end_ : option Z) : list A :=
  let len := Z.of_nat (length l) in
  let k := clamp_index len start in
  let final := match end_ with
               | Some e => clamp_index len e
               | None => len
               end in
  take (Z.to_nat (Z.max (final - k) 0)) (drop (Z.to_nat k) l).

(** A number converted from an integer of magnitude below [2^63], as an
    IEEE binary64 value. *)
Definition number (z : Z) : PrimFloat.float :=
  if z <? 0 then PrimFloat.opp (PrimFloat.of_uint63 (Uint63.of_Z (- z)))
  else PrimFloat.of_uint63 (Uint63.of_Z z).

End JS.

(** ** Exceptions, promises and the state of the outside world *)

Module Eff.

(** A settled promise: rejected with an error (of which the code only
    ever reads [error.message]) or fulfilled with a value. *)
Inductive outcome (A : Type) : Type :=
| Throw (message : string)
| Return (a : A).
Arguments Throw {A} message.
Arguments Return {A} a.

#[global] Instance outcome_ret : MRet outcome := λ A a, Return a.
#[global] Instance outcome_bind : MBind outcome := λ A B k c,
  match c with
  | Throw m => Throw m
  | Return a => k a
  end.

(** [try { body } catch (error) { handler error.message }] on promises
    that touch no state. *)
Definition catching {A} (body : outcome A) (handler : string → outcome A) : outcome A :=
  match body with
  | Throw m => handler m
  | Return a => Return a
  end.

(** Computations over a state [S] that may throw. *)
Definition M (S A : Type) : Type := S → S * outcome A.

#[global] Instance M_ret {S} : MRet (M S) := λ A a s, (s, Return a).
#[global] Instance M_bind {S} : MBind (M S) := λ A B k c s,
  match c s with
  | (s', Throw m) => (s', Throw m)
  | (s', Return a) => k a s'
  end.

Definition throw {S A} (m : string) : M S A := λ s, (s, Throw m).
Definition lift {S A} (o : outcome A) : M S A := λ s, (s, o).
Definition get {S} : M S S := λ s, (s, Return s).
Definition modify {S} (f : S → S) : M S unit := λ s, (f s, Return tt).

(** [try { body } catch (error) { handler error.message }]. *)
Definition try_catch {S A} (body : M S A) (handler : string → M S A) : M S A := λ s,
  match body s with
  | (s', Throw m) => handler m s'
  | (s', Return a) => (s', Return a)
  end.

(** [try { body } finally { fin }]: [fin] runs whatever [body] did; an
    exception of [fin] replaces the completion of [body]. *)
Definition try_finally {S A} (body : M S A) (fin : M S unit) : M S A := λ s,
  let '(s1, r) := body s in
  match fin s1 with
  | (s2, Throw m) => (s2, Throw m)
  | (s2, Return _) => (s2, r)
  end.

End Eff.

(** ** font-scanner.js: class HawaiianFontScanner *)

Module Scanner.
Import JS Eff.

(** An item of the font directory's answer ([response.data.items]). *)
Record FontDescriptor : Type := {
  family : string;
  variants : list string;
  subsets : list string;
  version : string;
  lastModified : string;
  files : list (string * string);
  category : string
}.

(** What one element handle answers to [screenshot()]. *)
Record ElementHandle : Type := {
  screenshot : outcome Buffer
}.

(** What one page of the rendering engine answers to each call the
    scanner makes on it.  [query] is [page.$], which resolves to [null]
    ([None]) when no element matches; the two [evaluate] calls of
    [testDiacriticalCharacters] are told apart by their argument. *)
Record Page : Type := {
  setContent : outcome unit;
  waitForTimeout : outcome unit;
  query : string → outcome (option ElementHandle);
  evaluate_append : string → outcome unit;
  evaluate_width : string → outcome Z;
  close : outcome unit
}.

(** The collaborators of one scanner: the rendering engine, the font
    directory, the clock and the file system. *)
Record Env : Type := {
  launch : outcome unit;
  newPage : nat → outcome Page;
  browser_close : outcome unit;
  axios_get : outcome (list FontDescriptor);
  toISOString : nat → string;
  writeFile : outcome string
}.

Inductive Event : Type :=
| EvLaunch
| EvNewPage (p : nat)
| EvClose (p : nat)
| EvBrowserClose.

(** The mutable part: [this.browser], how often the engine and the clock
    were asked, the pages acquired and not yet released, and the calls
    made so far, newest first. *)
Record State : Type := {
  browser : bool;
  newPage_calls : nat;
  clock_reads : nat;
  open_pages : list nat;
  trace : list Event
}.

Definition initial_state : State :=
  {| browser := false; newPage_calls := 0; clock_reads := 0;
     open_pages := []; trace := [] |}.

Record Options : Type := {
  opt_batchSize : option Z;
  opt_pixelThreshold : option Z
}.

(** The fields the constructor sets from its options. *)
Record Config : Type := {
  batchSize : Z;
  pixelThreshold : Z
}.

Definition constructor (options : Options) : Config :=
  {| batchSize := or_default (opt_batchSize options) 50;
     pixelThreshold := or_default (opt_pixelThreshold options) 50 |}.

Definition lowercase : list string := ["ā"; "ē"; "ī"; "ō"; "ū"].
Definition uppercase : list string := ["Ā"; "Ē"; "Ī"; "Ō"; "Ū"].

Record DiacriticalSupport : Type := {
  individual : gmap string bool;
  supportedCount : Z;
  totalCount : Z;
  allSupported : bool;
  percentageSupported : PrimFloat.float
}.

(** The object [analyzeFontCharacters] resolves to; the keys the error
    path leaves out are [None]. *)
Record Analysis : Type := {
  fontFamily : string;
  okenVsApostropheDifference : option Z;
  hasVisualDistinction : option bool;
  diacriticalSupport : option DiacriticalSupport;
  phrasePreview : option Buffer;
  error : option string;
  autoApproved : bool
}.

(** An element of the array [scanFontBatch] resolves to: the analysis
    spread into the object, and the three keys added. *)
Record ScanResult : Type := {
  analysis : Analysis;
  googleFontData : FontDescriptor;
  scannedAt : string;
  scanBatch : string
}.

(** *** initialize, cleanup *)

Definition log (e : Event) : M State unit :=
  modify (λ s, {| browser := browser s; newPage_calls := newPage_calls s;
                  clock_reads := clock_reads s; open_pages := open_pages s;
                  trace := e :: trace s |}).

Definition initialize (env : Env) : M State unit :=
  _ ← log EvLaunch;
  _ ← lift (launch env);
  modify (λ s, {| browser := true; newPage_calls := newPage_calls s;
                  clock_reads := clock_reads s; open_pages := open_pages s;
                  trace := trace s |}).

Definition cleanup (env : Env) : M State unit :=
  s ← get;
  if browser s then _ ← log EvBrowserClose; lift (browser_close env) else mret tt.

(** *** fetchGoogleFonts *)

Definition fetchGoogleFonts (env : Env) (offset : Z) (limit : option Z)
  : M State (list FontDescriptor) :=
  try_catch
    (fonts ← lift (axios_get env);
     let fonts := if 0 <? offset then slice fonts offset None else fonts in
     let fonts := match limit with
                  | Some l => if truthy l then slice fonts 0 (Some l) else fonts
                  | None => fonts
                  end in
     mret fonts)
    (λ message, throw message).

(** *** compareImages *)

Definition compareImages (img1Buffer img2Buffer : Buffer) : Z :=
  if bool_decide (length img1Buffer ≠ length img2Buffer) then
    Z.abs (Z.of_nat (length img1Buffer) - Z.of_nat (length img2Buffer))
  else
    foldl (λ differences i,
             if strict_neq (img1Buffer !! i) (img2Buffer !! i)
             then differences + 1 else differences)
          0 (seq 0 (length img1Buffer)).

(** *** testDiacriticalCharacters *)

Definition dquote : string := String (Ascii.ascii_of_nat 34) EmptyString.

Definition testHtml (char : string) : string :=
  "<div style=" +:+ dquote +:+ "font-family: inherit; font-size: 48px;" +:+ dquote
  +:+ ">" +:+ char +:+ "</div>".

(** The [for ... of] loop over [allCharacters], filling [results]. *)
Fixpoint probe_characters (page : Page) (chars : list string)
  (results : gmap string bool) : outcome (gmap string bool) :=
  match chars with
  | [] => mret results
  | char :: rest =>
      _ ← evaluate_append page (testHtml char);
      charWidth ← evaluate_width page char;
      probe_characters page rest (<[char := bool_decide (10 < charWidth)]> results)
  end.

(** [Object.values(results).filter(Boolean).length]. *)
Definition count_supported (results : gmap string bool) : Z :=
  Z.of_nat (length (filter (λ b : bool, b = true) (map_to_list results).*2)).

Definition percentage (supportedCount totalCount : Z) : PrimFloat.float :=
  PrimFloat.mul (PrimFloat.div (number supportedCount) (number totalCount)) (number 100).

Definition summarize (allCharacters : list string) (results : gmap string bool)
  : DiacriticalSupport :=
  let supportedCount := count_supported results in
  let totalCount := Z.of_nat (length allCharacters) in
  {| individual := results;
     supportedCount := supportedCount;
     totalCount := totalCount;
     allSupported := bool_decide (supportedCount = totalCount);
     percentageSupported := percentage supportedCount totalCount |}.

(** The object of the [catch] branch. *)
Definition probe_fault : DiacriticalSupport :=
  {| individual := ∅;
     supportedCount := 0;
     totalCount := 0;
     allSupported := false;
     percentageSupported := number 0 |}.

Definition testDiacriticalCharacters (page : Page) : outcome DiacriticalSupport :=
  catching
    (let allCharacters := lowercase ++ uppercase in
     results ← probe_characters page allCharacters ∅;
     mret (summarize allCharacters results))
    (λ _, mret probe_fault).

(** *** analyzeFontCharacters *)

Definition set_pages (f : list nat → list nat) (e : list Event → list Event)
  (s : State) : State :=
  {| browser := browser s; newPage_calls := newPage_calls s;
     clock_reads := clock_reads s; open_pages := f (open_pages s);
     trace := e (trace s) |}.

(** [await this.browser.newPage()]: the page and the number it is known
    by in the trace. *)
Definition browser_newPage (env : Env) : M State (nat * Page) :=
  s ← get;
  if browser s then
    let p := newPage_calls s in
    _ ← modify (λ s, {| browser := browser s; newPage_calls := S p;
                        clock_reads := clock_reads s;
                        open_pages := open_pages s; trace := trace s |});
    page ← lift (newPage env p);
    _ ← modify (set_pages (cons p) (cons (EvNewPage p)));
    mret (p, page)
  else throw "Cannot read properties of null (reading 'newPage')".

(** [await page.close()]. *)
Definition page_close (p : nat) (page : Page) : M State unit :=
  _ ← modify (set_pages id (cons (EvClose p)));
  _ ← lift (close page);
  modify (set_pages (filter (λ q, q ≠ p)) id).

(** [element.screenshot()] on what [page.$] resolved to. *)
Definition element_screenshot (element : option ElementHandle) : outcome Buffer :=
  match element with
  | Some handle => screenshot handle
  | None => Throw "Cannot read properties of null (reading 'screenshot')"
  end.

(** The [try] block.  [phrasePreview] holds the bytes whose base64 text
    the code stores. *)
Definition analyze_try (cfg : Config) (fontFamily : string) (page : Page)
  : outcome Analysis :=
  _ ← setContent page;
  _ ← waitForTimeout page;
  okenElement ← query page "#okina-test";
  apostropheElement ← query page "#apostrophe-test";
  okenScreenshot ← element_screenshot okenElement;
  apostropheScreenshot ← element_screenshot apostropheElement;
  let pixelDifference := compareImages okenScreenshot apostropheScreenshot in
  diacriticalTest ← testDiacriticalCharacters page;
  phraseElement ← query page "#phrase-test";
  phraseScreenshot ← element_screenshot phraseElement;
  mret {| fontFamily := fontFamily;
          okenVsApostropheDifference := Some pixelDifference;
          hasVisualDistinction := Some (pixelThreshold cfg <? pixelDifference);
          diacriticalSupport := Some diacriticalTest;
          phrasePreview := Some phraseScreenshot;
          error := None;
          autoApproved := (pixelThreshold cfg <? pixelDifference)
                          && allSupported diacriticalTest |}.

(** The object of the [catch] block. *)
Definition analyze_catch (fontFamily : string) (message : string) : Analysis :=
  {| fontFamily := fontFamily;
     okenVsApostropheDifference := None;
     hasVisualDistinction := None;
     diacriticalSupport := None;
     phrasePreview := None;
     error := Some message;
     autoApproved := false |}.

Definition analyzeFontCharacters (env : Env) (cfg : Config) (fontFamily : string)
  : M State Analysis :=
  '(p, page) ← browser_newPage env;
  try_finally
    (try_catch
       (lift (analyze_try cfg fontFamily page))
       (λ message, mret (analyze_catch fontFamily message)))
    (page_close p page).

(** *** scanFontBatch *)

Definition now (env : Env) : M State string :=
  s ← get;
  _ ← modify (λ s, {| browser := browser s; newPage_calls := newPage_calls s;
                      clock_reads := S (clock_reads s);
                      open_pages := open_pages s; trace := trace s |});
  mret (toISOString env (clock_reads s)).

Definition batch_label (cfg : Config) (offset : Z) (limit : option Z) : string :=
  pretty offset +:+ "-" +:+ pretty (offset + or_default limit (batchSize cfg)).

Definition tag (font : FontDescriptor) (a : Analysis) (at_ label : string) : ScanResult :=
  {| analysis := a;
     googleFontData :=
       {| family := family font; variants := variants font;
          subsets := subsets font; version := version font;
          lastModified := lastModified font; files := files font;
          category := category font |};
     scannedAt := at_;
     scanBatch := label |}.

(** The [for] loop over [fonts]; [results.push] appends.  The pause of
    100 ms after each font changes nothing that is modelled. *)
Fixpoint scan_fonts (env : Env) (cfg : Config) (label : string)
  (fonts : list FontDescriptor) (results : list ScanResult)
  : M State (list ScanResult) :=
  match fonts with
  | [] => mret results
  | font :: rest =>
      a ← analyzeFontCharacters env cfg (family font);
      at_ ← now env;
      scan_fonts env cfg label rest (results ++ [tag font a at_ label])
  end.

Definition scanFontBatch (env : Env) (cfg : Config) (offset : Z) (limit : option Z)
  : M State (list ScanResult) :=
  fonts ← fetchGoogleFonts env offset (Some (or_default limit (batchSize cfg)));
  scan_fonts env cfg (batch_label cfg offset limit) fonts [].

(** *** saveResults, runScan *)

Definition saveResults (env : Env) : M State string := lift (writeFile env).

Record RunOptions : Type := {
  run_offset : option Z;
  run_limit : option Z;
  run_saveToDisk : option bool
}.

Definition runScan (env : Env) (cfg : Config) (options : RunOptions)
  : M State (list ScanResult) :=
  let offset := default 0 (run_offset options) in
  let limit := default (batchSize cfg) (run_limit options) in
  let saveToDisk := default true (run_saveToDisk options) in
  try_finally
    (try_catch
       (_ ← initialize env;
        results ← scanFontBatch env cfg offset (Some limit);
        _ ← (if saveToDisk then _ ← saveResults env; mret tt else mret tt);
        mret results)
       (λ message, throw message))
    (cleanup env).

End Scanner.

(** ** The server: scan batches, the asynchronous run, the schedule *)

Module Server.
Import JS Eff.

(** A row of [scan_batches].  Times are milliseconds since the epoch. *)
Record ScanBatchRow : Type := {
  id : Z;
  batch_number : Z;
  scan_type : string;
  batch_offset : Z;
  batch_limit : Z;
  status : string;
  started_at : Z;
  completed_at : option Z;
  fonts_processed : Z;
  fonts_approved : Z;
  processing_notes : option string;
  error_message : option string
}.

(** The arguments of one call of the stored procedure
    [insert_scan_result]; the second and third are passed as JSON text
    of the values kept here. *)
Record InsertCall : Type := {
  arg_fontFamily : string;
  arg_googleFontData : Scanner.FontDescriptor;
  arg_scanResult : Scanner.ScanResult;
  arg_batchInfo : string
}.

(** The database: the batches, and the calls of [insert_scan_result]
    that returned, oldest first.  Statements over [scan_batches] are
    total on this store: the connection pool is taken to be available. *)
Record Db : Type := {
  scan_batches : list ScanBatchRow;
  written : list InsertCall
}.

Definition set_batches (f : list ScanBatchRow → list ScanBatchRow) (db : Db) : Db :=
  {| scan_batches := f (scan_batches db); written := written db |}.

(** [SELECT id FROM scan_batches WHERE status = 'running']. *)
Definition select_running : M Db (list Z) :=
  db ← get;
  mret (id <$> filter (λ r, status r = "running") (scan_batches db)).

(** [SELECT COALESCE(MAX(batch_number), 0) + 1 FROM scan_batches]. *)
Definition next_batch_number (rows : list ScanBatchRow) : Z :=
  match rows with
  | [] => 0 + 1
  | r :: rest => foldl Z.max (batch_number r) (batch_number <$> rest) + 1
  end.

(** [SELECT MAX(started_at) FROM scan_batches WHERE scan_type = 'incremental']. *)
Definition select_last_incremental : M Db (option Z) :=
  db ← get;
  mret (match started_at <$> filter (λ r, scan_type r = "incremental") (scan_batches db) with
        | [] => None
        | t :: rest => Some (foldl Z.max t rest)
        end).

Inductive StartResponse : Type :=
| Conflict (error : string) (runningScanId : Z)
| Started (message : string) (batchId batchNumber offset limit : Z)
| Failure (error : string).

Definition http_status (r : StartResponse) : Z :=
  match r with
  | Conflict _ _ => 409
  | Started _ _ _ _ _ => 200
  | Failure _ => 500
  end.

(** The call [scanFontsAsync(batchId, offset, batchSize, pixelThreshold)]
    the handler starts without awaiting it. *)
Record AsyncScan : Type := {
  scan_batchId : Z;
  scan_offset : Z;
  scan_batchSize : Z;
  scan_pixelThreshold : Z
}.

Record StartBody : Type := {
  body_batchSize : option Z;
  body_offset : option Z;
  body_scanType : option string;
  body_pixelThreshold : option Z
}.

Section Schema.

(** The table definition is not part of the sources: [defaults rows t] is
    the row an [INSERT] at time [t] into the table [rows] gets before the
    columns it names are set (fresh [id], default [status], ...). *)
Variable defaults : list ScanBatchRow → Z → ScanBatchRow.

(** [INSERT INTO scan_batches (batch_number, scan_type, batch_offset,
    batch_limit) VALUES (...) RETURNING id, batch_number]. *)
Definition insert_batch (t : Z) (scanType : string) (offset batchSize : Z)
  : M Db (Z * Z) :=
  db ← get;
  let d := defaults (scan_batches db) t in
  let row := {| id := id d;
                batch_number := next_batch_number (scan_batches db);
                scan_type := scanType;
                batch_offset := offset;
                batch_limit := batchSize;
                status := status d;
                started_at := started_at d;
                completed_at := completed_at d;
                fonts_processed := fonts_processed d;
                fonts_approved := fonts_approved d;
                processing_notes := processing_notes d;
                error_message := error_message d |} in
  _ ← modify (set_batches (λ rows, rows ++ [row]));
  mret (id row, batch_number row).

(** [app.post('/api/scan/start', ...)] at time [t]: the response sent and
    the asynchronous scan started, if any. *)
Definition scan_start (t : Z) (body : StartBody)
  : M Db (StartResponse * option AsyncScan) :=
  try_catch
    (let batchSize := default 50 (body_batchSize body) in
     let offset := default 0 (body_offset body) in
     let scanType := default "manual" (body_scanType body) in
     let pixelThreshold := default 50 (body_pixelThreshold body) in
     runningCheck ← select_running;
     match runningCheck with
     | running :: _ => mret (Conflict "A scan is already running" running, None)
     | [] =>
         '(batchId, batchNumber) ← insert_batch t scanType offset batchSize;
         mret (Started "Scan started" batchId batchNumber offset batchSize,
               Some {| scan_batchId := batchId; scan_offset := offset;
                       scan_batchSize := batchSize;
                       scan_pixelThreshold := pixelThreshold |})
     end)
    (λ _, mret (Failure "Failed to start scan", None)).

End Schema.

(** *** scanFontsAsync, insertScanResult *)

(** [UPDATE scan_batches SET ... WHERE id = batchId]. *)
Definition update_batch (batchId : Z) (f : ScanBatchRow → ScanBatchRow) : M Db unit :=
  modify (set_batches (fmap (λ r, if bool_decide (id r = batchId) then f r else r))).

Definition completed_row (t processed approved : Z) (r : ScanBatchRow) : ScanBatchRow :=
  {| id := id r; batch_number := batch_number r; scan_type := scan_type r;
     batch_offset := batch_offset r; batch_limit := batch_limit r;
     status := "completed";
     started_at := started_at r;
     completed_at := Some t;
     fonts_processed := processed;
     fonts_approved := approved;
     processing_notes :=
       Some ("Processed " +:+ pretty processed +:+ " fonts, "
             +:+ pretty approved +:+ " auto-approved");
     error_message := error_message r |}.

Definition failed_row (t : Z) (message : string) (r : ScanBatchRow) : ScanBatchRow :=
  {| id := id r; batch_number := batch_number r; scan_type := scan_type r;
     batch_offset := batch_offset r; batch_limit := batch_limit r;
     status := "failed";
     started_at := started_at r;
     completed_at := Some t;
     fonts_processed := fonts_processed r;
     fonts_approved := fonts_approved r;
     processing_notes := processing_notes r;
     error_message := Some message |}.

Section Procedure.

(** The stored procedure [insert_scan_result] is not part of the
    sources: [procedure call] is what it answers, the new [font_id] or an
    error. *)
Variable procedure : InsertCall → outcome Z.

Definition insertScanResult (scanResult : Scanner.ScanResult) (batchInfo : string)
  : M Db Z :=
  try_catch
    (let call := {| arg_fontFamily := Scanner.fontFamily (Scanner.analysis scanResult);
                    arg_googleFontData := Scanner.googleFontData scanResult;
                    arg_scanResult := scanResult;
                    arg_batchInfo := batchInfo |} in
     font_id ← lift (procedure call);
     _ ← modify (λ db, {| scan_batches := scan_batches db;
                          written := written db ++ [call] |});
     mret font_id)
    (λ message, throw message).

(** The [for ... of] loop over [results] with its two counters. *)
Fixpoint insert_results (batchInfo : string) (results : list Scanner.ScanResult)
  (processedCount approvedCount : Z) : M Db (Z * Z) :=
  match results with
  | [] => mret (processedCount, approvedCount)
  | result :: rest =>
      if not_str (Scanner.error (Scanner.analysis result)) then
        _ ← insertScanResult result batchInfo;
        let processedCount := processedCount + 1 in
        let approvedCount :=
          if Scanner.autoApproved (Scanner.analysis result)
          then approvedCount + 1 else approvedCount in
        insert_results batchInfo rest processedCount approvedCount
      else insert_results batchInfo rest processedCount approvedCount
  end.

(** [scanFontsAsync] against the collaborators [env] of its scanner;
    [t] is [CURRENT_TIMESTAMP] of the final [UPDATE]. *)
Definition scanFontsAsync (env : Scanner.Env) (t : Z)
  (batchId offset batchSize pixelThreshold : Z) : M Db unit :=
  let scanner := Scanner.constructor
                   {| Scanner.opt_batchSize := Some batchSize;
                      Scanner.opt_pixelThreshold := Some pixelThreshold |} in
  try_catch
    (results ← lift (Scanner.runScan env scanner
                       {| Scanner.run_offset := Some offset;
                          Scanner.run_limit := Some batchSize;
                          Scanner.run_saveToDisk := Some false |}
                       Scanner.initial_state).2;
     '(processedCount, approvedCount) ←
        insert_results ("batch-" +:+ pretty batchId) results 0 0;
     update_batch batchId (completed_row t processedCount approvedCount))
    (λ message, update_batch batchId (failed_row t message)).

End Procedure.

(** *** The scheduled incremental scan *)

Definition day_ms : Z := 1000 * 60 * 60 * 24.

(** The callback of [cron.schedule] fired at time [t] ([Date.now()]);
    it resolves to the lines it wrote to the console. *)
Definition scheduled_scan (t : Z) : M Db (list string) :=
  lastScan ← select_last_incremental;
  let daysSinceLastScan :=
    match lastScan with
    | Some last_scan => (t - last_scan) `div` day_ms
    | None => 999
    end in
  if 14 <=? daysSinceLastScan then
    try_catch
      (runningCheck ← select_running;
       if bool_decide (length runningCheck = 0%nat)
       then mret ["🕒 Starting scheduled incremental scan...";
                  "Starting incremental scan for new fonts..."]
       else mret ["🕒 Starting scheduled incremental scan..."])
      (λ _, mret ["🕒 Starting scheduled incremental scan...";
                  "Scheduled scan failed:"])
  else mret [].

End Server.

(** ** Notions the properties are stated with *)

Module Notions.
Import JS Eff Scanner.

(** The positions at which two buffers differ, among those of the first. *)
Definition differing_positions (a b : Buffer) : list nat :=
  filter (λ i, a !! i ≠ b !! i) (seq 0 (length a)).

(** The probe of one character on a page: measured wider than 10. *)
Definition glyph_supported (page : Page) (char : string) : bool :=
  match evaluate_width page char with
  | Return charWidth => bool_decide (10 < charWidth)
  | Throw _ => false
  end.

(** What the guarded region of [analyzeFontCharacters] resolves to on a
    page: the object of the [try] block, or that of the [catch] block. *)
Definition settle (cfg : Config) (fontFamily : string) (page : Page) : Analysis :=
  match analyze_try cfg fontFamily page with
  | Return a => a
  | Throw message => analyze_catch fontFamily message
  end.

(** The state after page [p] was acquired and [close] was called on it. *)
Definition after_page (st : State) (closed : bool) : State :=
  let p := newPage_calls st in
  {| browser := browser st;
     newPage_calls := S p;
     clock_reads := clock_reads st;
     open_pages := if closed then filter (λ q, q ≠ p) (p :: open_pages st)
                   else p :: open_pages st;
     trace := EvClose p :: EvNewPage p :: trace st |}.

(** The state after one reading of the clock. *)
Definition tick (st : State) : State :=
  {| browser := browser st; newPage_calls := newPage_calls st;
     clock_reads := S (clock_reads st); open_pages := open_pages st;
     trace := trace st |}.

(** The element of the batch for the [i]-th font scanned from [st] on,
    given the page it was rendered on. *)
Definition result_on (env : Env) (cfg : Config) (label : string) (st : State)
  (i : nat) (fp : FontDescriptor * Page) : ScanResult :=
  tag fp.1 (settle cfg (family fp.1) fp.2)
    (toISOString env (clock_reads st + i)%nat) label.

(** The call of the stored procedure made for one result. *)
Definition call_of (batchInfo : string) (r : ScanResult) : Server.InsertCall :=
  {| Server.arg_fontFamily := fontFamily (analysis r);
     Server.arg_googleFontData := googleFontData r;
     Server.arg_scanResult := r;
     Server.arg_batchInfo := batchInfo |}.

(** The guard [!result.error]: no [error] key, or an empty message. *)
Definition unfailed (r : ScanResult) : Prop := not_str (error (analysis r)) = true.

Definition approved (r : ScanResult) : Prop := autoApproved (analysis r) = true.

(** The [UPDATE] of a completed run on the whole table. *)
Definition completed_table (t batchId processed approved : Z)
  (rows : list Server.ScanBatchRow) : list Server.ScanBatchRow :=
  (λ r, if bool_decide (Server.id r = batchId)
        then Server.completed_row t processed approved r else r) <$> rows.

End Notions.

(** ** Concrete collaborators, used to run the code *)

Module Samples.
Import JS Eff Scanner.

Definition font (name : string) : FontDescriptor :=
  {| family := name; variants := ["regular"]; subsets := ["latin"];
     version := "v1"; lastModified := "2024-01-01";
     files := [("regular", "https://fonts.gstatic.com/s/" +:+ name)];
     category := "sans-serif" |}.

Definition catalog : list FontDescriptor := [font "A"; font "B"; font "C"].

Definition element (n : nat) : ElementHandle :=
  {| screenshot := Return (replicate n x00) |}.

(** A page whose ʻokina and apostrophe snapshots have [okina] and
    [apostrophe] bytes and whose glyphs are [width c] wide. *)
Definition page (okina apostrophe : nat) (width : string → Z) : Page :=
  {| setContent := Return tt;
     waitForTimeout := Return tt;
     query := λ selector,
       if String.eqb selector "#okina-test" then Return (Some (element okina))
       else if String.eqb selector "#apostrophe-test" then Return (Some (element apostrophe))
       else Return (Some (element 40));
     evaluate_append := λ _, Return tt;
     evaluate_width := λ c, Return (width c);
     close := Return tt |}.

(** A page on which loading the markup fails. *)
Definition broken_page : Page :=
  {| setContent := Throw "net::ERR_INTERNET_DISCONNECTED";
     waitForTimeout := Return tt;
     query := λ _, Return None;
     evaluate_append := λ _, Return tt;
     evaluate_width := λ _, Return 0;
     close := Return tt |}.

(** A page whose execution context is lost during the glyph probes. *)
Definition detached_page : Page :=
  {| setContent := Return tt;
     waitForTimeout := Return tt;
     query := λ _, Return (Some (element 40));
     evaluate_append := λ _, Throw "Execution context was destroyed.";
     evaluate_width := λ _, Return 24;
     close := Return tt |}.

Definition wide : string → Z := λ _, 24.
Definition narrow_a : string → Z := λ c, if String.eqb c "ā" then 4 else 24.

Definition env (pages : nat → outcome Page) (items : list FontDescriptor) : Env :=
  {| launch := Return tt;
     newPage := pages;
     browser_close := Return tt;
     axios_get := Return items;
     toISOString := λ k, "2024-01-01T00:00:0" +:+ pretty k +:+ ".000Z";
     writeFile := Return "scan-results/scan-results-batch-0-0.json" |}.

(** Scores 60, 10 and 70; the second font lacks one glyph. *)
Definition three_pages (k : nat) : outcome Page :=
  match k with
  | 0%nat => Return (page 160 100 wide)
  | 1%nat => Return (page 110 100 narrow_a)
  | _ => Return (page 170 100 wide)
  end.

(** The second page cannot be loaded. *)
Definition one_broken (k : nat) : outcome Page :=
  match k with
  | 1%nat => Return broken_page
  | _ => Return (page 160 100 wide)
  end.

(** The engine refuses the second page. *)
Definition one_refused (k : nat) : outcome Page :=
  match k with
  | 1%nat => Throw "Protocol error (Target.createTarget): Target closed."
  | _ => Return (page 160 100 wide)
  end.

Definition broken_pages : list Page :=
  [page 160 100 wide; broken_page; page 160 100 wide].

Definition ready : State :=
  {| browser := true; newPage_calls := 0; clock_reads := 0;
     open_pages := []; trace := [] |}.

Definition cfg : Config := constructor {| opt_batchSize := None; opt_pixelThreshold := None |}.

(** Column defaults of [scan_batches]: a serial [id], [status] running. *)
Definition schema_defaults (rows : list Server.ScanBatchRow) (t : Z)
  : Server.ScanBatchRow :=
  {| Server.id := Z.of_nat (length rows) + 1;
     Server.batch_number := 0;
     Server.scan_type := "manual";
     Server.batch_offset := 0;
     Server.batch_limit := 50;
     Server.status := "running";
     Server.started_at := t;
     Server.completed_at := None;
     Server.fonts_processed := 0;
     Server.fonts_approved := 0;
     Server.processing_notes := None;
     Server.error_message := None |}.

Definition running_batch : Server.ScanBatchRow :=
  {| Server.id := 7;
     Server.batch_number := 3;
     Server.scan_type := "manual";
     Server.batch_offset := 0;
     Server.batch_limit := 50;
     Server.status := "running";
     Server.started_at := 1700000000000;
     Server.completed_at := None;
     Server.fonts_processed := 0;
     Server.fonts_approved := 0;
     Server.processing_notes := None;
     Server.error_message := None |}.

Definition busy : Server.Db :=
  {| Server.scan_batches := [running_batch]; Server.written := [] |}.

Definition idle : Server.Db :=
  {| Server.scan_batches := []; Server.written := [] |}.

Definition no_body : Server.StartBody :=
  {| Server.body_batchSize := None; Server.body_offset := None;
     Server.body_scanType := None; Server.body_pixelThreshold := None |}.

Definition incremental_body : Server.StartBody :=
  {| Server.body_batchSize := None; Server.body_offset := None;
     Server.body_scanType := Some "incremental";
     Server.body_pixelThreshold := None |}.

(** A page whose markup lacks the ʻokina element. *)
Definition page_without_okina : Page :=
  {| setContent := Return tt;
     waitForTimeout := Return tt;
     query := λ selector,
       if String.eqb selector "#okina-test" then Return None
       else Return (Some (element 40));
     evaluate_append := λ _, Return tt;
     evaluate_width := λ _, Return 24;
     close := Return tt |}.


(** A stored procedure that refuses the font C. *)
Definition procedure_refusing_C : Server.InsertCall → outcome Z := λ call,
  if String.eqb (Server.arg_fontFamily call) "C"
  then Throw "duplicate key value violates unique constraint"
  else Return 1.

(** The state of a new scanner once its browser is launched. *)
Definition launched : State :=
  {| browser := true; newPage_calls := 0; clock_reads := 0;
     open_pages := []; trace := [EvLaunch] |}.

Definition procedure_ok : Server.InsertCall → outcome Z := λ _, Return 1.

(** The scanner and the options [scanFontsAsync] runs with for a batch of
    50 fonts from offset 0 and a threshold of 50. *)
Definition async_cfg : Config :=
  constructor {| opt_batchSize := Some 50; opt_pixelThreshold := Some 50 |}.

Definition async_options : RunOptions :=
  {| run_offset := Some 0; run_limit := Some 50; run_saveToDisk := Some false |}.

(** What [runScan] resolves to against [env], [[]] if it rejects. *)
Definition scanned (env : Env) : list ScanResult :=
  match (runScan env async_cfg async_options initial_state).2 with
  | Return results => results
  | Throw _ => []
  end.

(** A table whose only batch has completed. *)
Definition finished : Server.Db :=
  {| Server.scan_batches :=
       [Server.completed_row 1700000300000 1 1 running_batch];
     Server.written := [] |}.

(** The result of the scan of [three_pages] for the [i]-th font. *)
Definition result (i : nat) (name : string) (p : Page) : ScanResult :=
  Notions.result_on (env three_pages catalog) async_cfg "0-50" launched i (font name, p).

End Samples.

(** ** The server: scan status and the query of the font list *)

Module Api.
Import JS Eff.

(** *** GET /api/scan/status/:batchId? *)

Inductive StatusResponse : Type :=
| StatusNotFound (error : string)
| StatusOne (row : Server.ScanBatchRow)
| StatusRecent (rows : list Server.ScanBatchRow)
| StatusFailure (error : string).

(** [ORDER BY started_at DESC]: [a] may come before [b]. *)
Definition newer (a b : Server.ScanBatchRow) : Prop :=
  Server.started_at b ≤ Server.started_at a.

#[global] Instance newer_dec a b : Decision (newer a b).
Proof. unfold newer. apply _. Defined.

(** The two statements of the handler.  Rows that started at the same
    time come in the order the sort leaves them. *)
Definition select_status (batchId : option Z) : M Server.Db (list Server.ScanBatchRow) :=
  db ← get;
  mret (match batchId with
        | Some i => filter (λ r, Server.id r = i) (Server.scan_batches db)
        | None => take 10 (merge_sort newer (Server.scan_batches db))
        end).

Definition scan_status (batchId : option Z) : M Server.Db StatusResponse :=
  try_catch
    (rows ← select_status batchId;
     match batchId, rows with
     | Some _, [] => mret (StatusNotFound "Scan batch not found")
     | Some _, row :: _ => mret (StatusOne row)
     | None, _ => mret (StatusRecent rows)
     end)
    (λ _, mret (StatusFailure "Failed to fetch scan status")).

(** *** GET /api/fonts: the statement and its parameters *)

(** A piece of the statement text: literal text of the handler, or a
    placeholder [$n]. *)
Inductive Piece : Type :=
| Text (s : string)
| Placeholder (n : Z).

Inductive Param : Type :=
| PString (s : string)
| PNumber (z : Z).

(** The query string, with [page] and [limit] as the numbers they are
    used as. *)
Record FontsQuery : Type := {
  page : option Z;
  limit : option Z;
  category : option string;
  search : option string;
  approvalStatus : option string;
  sortBy : option string;
  sortOrder : option string
}.

Record Statement : Type := {
  whereClause : list Piece;
  sortColumn : string;
  order : string;
  limitOffset : list Piece;
  queryParams : list Param
}.

(** [s.toLowerCase()] on the letters A to Z; no other character becomes
    one of the letters of [desc]. *)
Definition lower_ascii (c : Ascii.ascii) : Ascii.ascii :=
  let n := Ascii.nat_of_ascii c in
  if bool_decide (65 ≤ n ≤ 90)%nat then Ascii.ascii_of_nat (n + 32) else c.

Fixpoint toLowerCase (s : string) : string :=
  match s with
  | EmptyString => EmptyString
  | String c rest => String (lower_ascii c) (toLowerCase rest)
  end.

Definition validSortColumns : list string :=
  ["font_family"; "google_font_category"; "scanned_at"; "diacritical_percentage"].

Definition status_filter (approvalStatus : string) : list Piece :=
  if String.eqb approvalStatus "approved" then
    [Text " AND (f.auto_approved = TRUE OR f.manually_approved = TRUE)"]
  else if String.eqb approvalStatus "pending" then
    [Text " AND f.auto_approved = FALSE AND f.manually_reviewed = FALSE"]
  else if String.eqb approvalStatus "rejected" then
    [Text " AND f.manually_approved = FALSE"]
  else [].

(** [if (value) { paramCount++; whereClause += text + $paramCount;
    queryParams.push(param) }]. *)
Definition add_filter (value : option string) (text : string) (param : string → string)
  (acc : Z * list Piece * list Param) : Z * list Piece * list Param :=
  let '(paramCount, whereClause, queryParams) := acc in
  match value with
  | Some v =>
      if truthy_str v then
        (paramCount + 1,
         whereClause ++ [Text text; Placeholder (paramCount + 1)],
         queryParams ++ [PString (param v)])
      else acc
  | None => acc
  end.

Definition build_fonts_statement (q : FontsQuery) : Statement :=
  let page := default 1 (page q) in
  let limit := default 20 (limit q) in
  let approvalStatus := default "approved" (approvalStatus q) in
  let sortBy := default "font_family" (sortBy q) in
  let sortOrder := default "asc" (sortOrder q) in
  let offset := (page - 1) * limit in
  let acc := (0, Text "WHERE f.is_active = TRUE" :: status_filter approvalStatus, []) in
  let acc := add_filter (category q) " AND f.google_font_category = " (λ v, v) acc in
  let acc := add_filter (search q) " AND f.font_family ILIKE "
               (λ v, "%" +:+ v +:+ "%") acc in
  let '(paramCount, whereClause, queryParams) := acc in
  {| whereClause := whereClause;
     sortColumn := if bool_decide (sortBy ∈ validSortColumns) then sortBy
                   else "font_family";
     order := if String.eqb (toLowerCase sortOrder) "desc" then "DESC" else "ASC";
     limitOffset := [Text "LIMIT "; Placeholder (paramCount + 1);
                     Text " OFFSET "; Placeholder (paramCount + 2)];
     queryParams := queryParams ++ [PNumber limit; PNumber offset] |}.

(** The placeholders of a text, in the order they occur. *)
Definition placeholders (pieces : list Piece) : list Z :=
  omap (λ p, match p with Placeholder n => Some n | Text _ => None end) pieces.

(** The literal texts of a statement. *)
Definition texts (pieces : list Piece) : list string :=
  omap (λ p, match p with Text s => Some s | Placeholder _ => None end) pieces.

(** Every literal the handler can put into the [WHERE] clause. *)
Definition where_literals : list string :=
  ["WHERE f.is_active = TRUE";
   " AND (f.auto_approved = TRUE OR f.manually_approved = TRUE)";
   " AND f.auto_approved = FALSE AND f.manually_reviewed = FALSE";
   " AND f.manually_approved = FALSE";
   " AND f.google_font_category = ";
   " AND f.font_family ILIKE "].

(** What the handler keeps true of [paramCount], [whereClause] and
    [queryParams] while it adds filters. *)
Definition well_numbered (acc : Z * list Piece * list Param) : Prop :=
  let '(paramCount, whereClause, queryParams) := acc in
  paramCount = Z.of_nat (length queryParams)
  ∧ placeholders whereClause = Z.of_nat <$> seq 1 (length queryParams)
  ∧ ∀ s, s ∈ texts whereClause → s ∈ where_literals.

End Api.

(** ** Notions for the lifecycle of pages and batches *)

Module Lifecycle.
Import JS Eff Scanner.

(** Calls on pages, newest first, in which every page acquired is closed
    before the next one is acquired. *)
Inductive sessions : list Event → Prop :=
| sessions_nil : sessions []
| sessions_cons p tr : sessions tr → sessions (EvClose p :: EvNewPage p :: tr).



End Lifecycle.

(** * Properties *)

Import JS Eff.

(** ** The difference score *)

Section DifferenceScorer.
Import Scanner Notions.

Lemma count_loop (P : nat → bool) (l : list nat) (z : Z) :
  foldl (λ differences i, if P i then differences + 1 else differences) z l
  = z + Z.of_nat (length (filter (λ i, P i = true) l)).
Proof.
  revert z. induction l as [|i l IH]; intros z; simpl.
  - lia.
  - rewrite IH, filter_cons.
    destruct (P i); case_decide; try done; simpl length; lia.
Qed.

Lemma compareImages_differ (a b : Buffer) :
  length a ≠ length b →
  compareImages a b = Z.abs (Z.of_nat (length a) - Z.of_nat (length b)).
Proof. intros H. unfold compareImages. by rewrite bool_decide_true. Qed.

Lemma compareImages_same (a b : Buffer) :
  length a = length b →
  compareImages a b = Z.of_nat (length (differing_positions a b)).
Proof.
  intros H. unfold compareImages, differing_positions.
  rewrite bool_decide_false by (intros ?; done).
  rewrite count_loop, Z.add_0_l. do 2 f_equal.
  apply list_filter_iff. intros i. unfold strict_neq.
  by rewrite bool_decide_eq_true.
Qed.

(** C1. [compareImages a b] is the absolute difference of the lengths
    when they differ, and the number of positions [i] with
    [a[i] !== b[i]] when they are equal; it is never negative. *)
Theorem compareImages_spec (a b : Buffer) :
  (length a ≠ length b →
     compareImages a b = Z.abs (Z.of_nat (length a) - Z.of_nat (length b)))
  ∧ (length a = length b →
     compareImages a b = Z.of_nat (length (differing_positions a b)))
  ∧ 0 ≤ compareImages a b.
Proof.
  split; [apply compareImages_differ|].
  split; [apply compareImages_same|].
  destruct (decide (length a = length b)) as [E|N].
  - rewrite compareImages_same by done. lia.
  - rewrite compareImages_differ by done. lia.
Qed.

Lemma compareImages_spec_witness :
  compareImages [x00; x2a; xff] [x00; x2b; xfe] = 2
  ∧ compareImages [x00; x2a; xff] [x00] = 2.
Proof.
  split.
  - apply (proj1 (proj2 (compareImages_spec [x00; x2a; xff] [x00; x2b; xfe]))).
    reflexivity.
  - apply (proj1 (compareImages_spec [x00; x2a; xff] [x00])).
    simpl. lia.
Defined.

(** Snapshots of 100 and 120 bytes score 20, which is not above the
    default threshold of 50. *)
Example compareImages_100_120 :
  compareImages (replicate 100 x00) (replicate 120 xff) = 20
  ∧ (pixelThreshold Samples.cfg <? 20) = false.
Proof. split; reflexivity. Qed.

(** C10. The score does not depend on the order of its arguments. *)
Theorem compareImages_sym (a b : Buffer) :
  compareImages a b = compareImages b a.
Proof.
  destruct (decide (length a = length b)) as [E|N].
  - rewrite !compareImages_same by done. unfold differing_positions.
    rewrite E. do 2 f_equal. apply list_filter_iff.
    intros i. split; intros H ?; by apply H.
  - rewrite !compareImages_differ by done. lia.
Qed.

End DifferenceScorer.

(** ** The font directory window *)

Section FontCatalogSource.
Import Scanner.

Lemma slice_drop {A} (l : list A) (n : nat) :
  slice l (Z.of_nat n) None = drop n l.
Proof.
  unfold slice, clamp_index.
  destruct (Z.ltb_spec (Z.of_nat n) 0) as [?|_]; [lia|].
  destruct (Z.min_spec (Z.of_nat n) (Z.of_nat (length l))) as [[? ->]|[? ->]].
  - rewrite Nat2Z.id. apply take_ge. rewrite length_drop. lia.
  - rewrite Nat2Z.id, Z.sub_diag. simpl.
    rewrite !drop_ge by lia. done.
Qed.

Lemma slice_take {A} (l : list A) (n : nat) :
  slice l 0 (Some (Z.of_nat n)) = take n l.
Proof.
  unfold slice, clamp_index. simpl.
  destruct (Z.ltb_spec (Z.of_nat n) 0) as [?|_]; [lia|].
  replace (Z.to_nat (Z.min 0 (Z.of_nat (length l)))) with 0%nat by lia.
  rewrite drop_0.
  destruct (Z.min_spec (Z.of_nat n) (Z.of_nat (length l))) as [[? ->]|[? ->]].
  - f_equal. lia.
  - replace (Z.to_nat _) with (length l) by lia.
    rewrite !take_ge by lia. done.
Qed.

Lemma fetchGoogleFonts_unlimited env st offset s :
  axios_get env = Return s →
  fetchGoogleFonts env offset None st = (st, Return (drop (Z.to_nat offset) s)).
Proof.
  intros H. unfold fetchGoogleFonts, try_catch, mbind, M_bind, lift, mret, M_ret.
  rewrite H. destruct (Z.ltb_spec 0 offset) as [Hpos|Hneg].
  - rewrite <- (Z2Nat.id offset) at 1 by lia. by rewrite slice_drop.
  - by replace (Z.to_nat offset) with 0%nat by lia.
Qed.

Lemma fetchGoogleFonts_zero env st offset s :
  axios_get env = Return s →
  fetchGoogleFonts env offset (Some 0) st = (st, Return (drop (Z.to_nat offset) s)).
Proof.
  intros H. rewrite <- (fetchGoogleFonts_unlimited env st offset s H).
  unfold fetchGoogleFonts, try_catch, mbind, M_bind, lift, mret, M_ret.
  by rewrite H.
Qed.

Lemma fetchGoogleFonts_limited env st offset limit s :
  axios_get env = Return s →
  0 < limit →
  fetchGoogleFonts env offset (Some limit) st
  = (st, Return (take (Z.to_nat limit) (drop (Z.to_nat offset) s))).
Proof.
  intros H Hl. unfold fetchGoogleFonts, try_catch, mbind, M_bind, lift, mret, M_ret.
  rewrite H. unfold truthy. destruct (Z.eqb_spec limit 0) as [?|_]; [lia|]. simpl.
  rewrite <- (Z2Nat.id limit) at 1 by lia. rewrite slice_take.
  destruct (Z.ltb_spec 0 offset) as [Hpos|Hneg].
  - rewrite <- (Z2Nat.id offset) at 1 by lia. by rewrite slice_drop.
  - by replace (Z.to_nat offset) with 0%nat by lia.
Qed.

(** C9, as the code has it.  For every offset and every limit of at
    least one, [fetchGoogleFonts] resolves to the window of the directory's
    answer [s] obtained by dropping [offset] elements (none when [offset]
    is not positive) and then taking at most [limit]; with a limit of [0]
    or [null] no limit is applied and it resolves to all of [s] from
    [offset] on. *)
Theorem fetchGoogleFonts_window env st offset s :
  axios_get env = Return s →
  (∀ limit, 0 < limit →
     fetchGoogleFonts env offset (Some limit) st
     = (st, Return (take (Z.to_nat limit) (drop (Z.to_nat offset) s))))
  ∧ fetchGoogleFonts env offset (Some 0) st = (st, Return (drop (Z.to_nat offset) s))
  ∧ fetchGoogleFonts env offset None st = (st, Return (drop (Z.to_nat offset) s)).
Proof.
  intros H. split; [|split].
  - intros limit Hl. by apply fetchGoogleFonts_limited.
  - by apply fetchGoogleFonts_zero.
  - by apply fetchGoogleFonts_unlimited.
Qed.

Lemma fetchGoogleFonts_window_witness :
  fetchGoogleFonts (Samples.env Samples.three_pages Samples.catalog) 1 (Some 1)
    Samples.ready
  = (Samples.ready, Return [Samples.font "B"]).
Proof.
  apply (proj1 (fetchGoogleFonts_window
                  (Samples.env Samples.three_pages Samples.catalog)
                  Samples.ready 1 Samples.catalog eq_refl) 1).
  lia.
Defined.

(** C9 as stated fails for a limit of [0]: the window [s[1 .. 1+0)] is
    empty, the code resolves to everything after the first font. *)
Lemma fetchGoogleFonts_limit_zero_not_window :
  fetchGoogleFonts (Samples.env Samples.three_pages Samples.catalog) 1 (Some 0)
    Samples.ready
  = (Samples.ready, Return [Samples.font "B"; Samples.font "C"])
  ∧ take (Z.to_nat 0) (drop (Z.to_nat 1) Samples.catalog) = []
  ∧ fetchGoogleFonts (Samples.env Samples.three_pages Samples.catalog) 1 (Some 0)
      Samples.ready
    ≠ (Samples.ready,
       Return (take (Z.to_nat 0) (drop (Z.to_nat 1) Samples.catalog))).
Proof.
  split; [reflexivity | split; [reflexivity|]].
  intros H. vm_compute in H. discriminate.
Qed.

End FontCatalogSource.

(** ** The glyph probes *)

Section CharacterRenderProbe.
Import Scanner Notions.

Lemma count_supported_empty : count_supported ∅ = 0.
Proof. unfold count_supported. by rewrite map_to_list_empty. Qed.

Lemma count_supported_insert (m : gmap string bool) (c : string) (v : bool) :
  m !! c = None →
  count_supported (<[c:=v]> m) = (if v then 1 else 0) + count_supported m.
Proof.
  intros Hc. unfold count_supported.
  rewrite (map_to_list_insert m c v Hc), fmap_cons, filter_cons. simpl.
  destruct v; case_decide; try done; simpl length; lia.
Qed.

(** A probe loop that completes has recorded one verdict per character. *)
Lemma probe_characters_Return page chars m results :
  probe_characters page chars m = Return results →
  results = foldl (λ m c, <[c := glyph_supported page c]> m) m chars.
Proof.
  revert m. induction chars as [|c chars IH]; intros m; simpl.
  - by intros [= ->].
  - unfold mbind, outcome_bind, glyph_supported.
    destruct (evaluate_append page (testHtml c)); [done|].
    destruct (evaluate_width page c) as [|w]; [done|].
    apply IH.
Qed.

Lemma count_supported_foldl (f : string → bool) chars (m : gmap string bool) :
  NoDup chars →
  (∀ c, c ∈ chars → m !! c = None) →
  count_supported (foldl (λ m c, <[c := f c]> m) m chars)
  = count_supported m + Z.of_nat (length (filter (λ c, f c = true) chars)).
Proof.
  revert m. induction chars as [|c chars IH]; intros m Hnd Hm; simpl.
  - lia.
  - apply NoDup_cons in Hnd as [Hc Hnd].
    rewrite IH; [|done|].
    + rewrite count_supported_insert by (apply Hm; left).
      rewrite filter_cons. destruct (f c); case_decide; try done; simpl length; lia.
    + intros c' Hc'. rewrite lookup_insert_ne; [apply Hm; by right|].
      intros ->. done.
Qed.

Lemma allCharacters_NoDup : NoDup (lowercase ++ uppercase).
Proof. by apply (bool_decide_unpack (NoDup (lowercase ++ uppercase))); vm_compute. Qed.

Lemma percentage_exact (k : Z) :
  0 ≤ k ≤ 10 → percentage k 10 = number (10 * k).
Proof.
  intros Hk.
  assert (k = 0 ∨ k = 1 ∨ k = 2 ∨ k = 3 ∨ k = 4 ∨ k = 5 ∨ k = 6 ∨ k = 7
          ∨ k = 8 ∨ k = 9 ∨ k = 10) as Hcases by lia.
  repeat (destruct Hcases as [->|Hcases]; [by vm_compute|]).
  subst k. by vm_compute.
Qed.

(** C7, as the code has it.  [testDiacriticalCharacters] always resolves.
    When the ten probes complete, [totalCount] is 10, [supportedCount] is
    the number of characters measured wider than 10, [allSupported] holds
    exactly when [supportedCount] equals [totalCount], and
    [percentageSupported] is [supportedCount / totalCount * 100], which
    is exactly ten times [supportedCount].  When a probe faults, the
    summary has [supportedCount = totalCount = 0], [percentageSupported = 0]
    and [allSupported = false]. *)
Theorem testDiacriticalCharacters_summary (page : Page) :
  ∃ d, testDiacriticalCharacters page = Return d ∧
    match probe_characters page (lowercase ++ uppercase) ∅ with
    | Return results =>
        individual d = results
        ∧ totalCount d = 10
        ∧ supportedCount d
          = Z.of_nat (length (filter (λ c, glyph_supported page c = true)
                                (lowercase ++ uppercase)))
        ∧ (allSupported d = true ↔ supportedCount d = totalCount d)
        ∧ percentageSupported d = percentage (supportedCount d) (totalCount d)
        ∧ percentageSupported d = number (10 * supportedCount d)
    | Throw _ =>
        supportedCount d = 0 ∧ totalCount d = 0
        ∧ allSupported d = false ∧ percentageSupported d = number 0
    end.
Proof.
  unfold testDiacriticalCharacters, catching, mbind, outcome_bind.
  destruct (probe_characters page (lowercase ++ uppercase) ∅) as [m|results] eqn:E.
  - exists probe_fault. done.
  - eexists. split; [reflexivity|].
    apply probe_characters_Return in E.
    assert (count_supported results
            = Z.of_nat (length (filter (λ c, glyph_supported page c = true)
                                  (lowercase ++ uppercase)))) as Hcount.
    { rewrite E, count_supported_foldl, count_supported_empty.
      - lia.
      - apply allCharacters_NoDup.
      - intros c _. apply lookup_empty. }
    unfold summarize. simpl.
    split; [done|]. split; [done|]. split; [done|].
    split; [apply bool_decide_eq_true|]. split; [done|].
    apply percentage_exact. rewrite Hcount.
    pose proof (length_filter (λ c, glyph_supported page c = true)
                  (lowercase ++ uppercase)) as Hle.
    simpl length in Hle at 2. lia.
Qed.

(** C7 as stated fails on the summary of a faulted test: its counts are
    equal (both 0) and [allSupported] is false. *)
Lemma probe_fault_counts_equal_not_allSupported :
  testDiacriticalCharacters Samples.detached_page = Return probe_fault
  ∧ supportedCount probe_fault = totalCount probe_fault
  ∧ ¬ (allSupported probe_fault = true
       ↔ supportedCount probe_fault = totalCount probe_fault).
Proof.
  split; [reflexivity|]. split; [reflexivity|].
  intros [_ H]. specialize (H eq_refl). discriminate H.
Qed.

End CharacterRenderProbe.

(** ** One font: session lifecycle and classification *)

Section AnalyzeFont.
Import Scanner Notions.

Ltac run :=
  unfold analyzeFontCharacters, browser_newPage, page_close, try_finally,
    try_catch, mbind, M_bind, mret, M_ret, get, modify, lift, throw, set_pages;
  simpl.

(** With a page in hand, the analysis is the guarded region followed by
    [close], whose fault is the only one that escapes. *)
Lemma analyzeFontCharacters_acquired env cfg fam st page :
  browser st = true →
  newPage env (newPage_calls st) = Return page →
  analyzeFontCharacters env cfg fam st
  = match close page with
    | Return _ => (after_page st true, Return (settle cfg fam page))
    | Throw m => (after_page st false, Throw m)
    end.
Proof.
  intros Hb Hp. run. rewrite Hb. simpl. rewrite Hp. simpl.
  unfold settle, after_page.
  destruct (analyze_try cfg fam page); destruct (close page); simpl;
    by rewrite ?Hb.
Qed.

(** Without a page there is nothing to guard: the fault escapes. *)
Lemma analyzeFontCharacters_refused env cfg fam st m :
  browser st = true →
  newPage env (newPage_calls st) = Throw m →
  (analyzeFontCharacters env cfg fam st).2 = Throw m
  ∧ trace (analyzeFontCharacters env cfg fam st).1 = trace st.
Proof. intros Hb Hp. run. rewrite Hb. simpl. by rewrite Hp. Qed.

(** The object of a [try] block that ran to its end. *)
Lemma analyze_try_Return cfg fam page a :
  analyze_try cfg fam page = Return a →
  ∃ okina apostrophe d shot,
    testDiacriticalCharacters page = Return d
    ∧ a = {| fontFamily := fam;
             okenVsApostropheDifference := Some (compareImages okina apostrophe);
             hasVisualDistinction :=
               Some (pixelThreshold cfg <? compareImages okina apostrophe);
             diacriticalSupport := Some d;
             phrasePreview := Some shot;
             error := None;
             autoApproved := (pixelThreshold cfg <? compareImages okina apostrophe)
                             && allSupported d |}.
Proof.
  unfold analyze_try, mbind, outcome_bind, mret, outcome_ret. intros H.
  repeat case_match; try discriminate H.
  injection H as <-. eauto 10.
Qed.

Lemma settle_cases cfg fam page :
  (error (settle cfg fam page) = None
   ∧ analyze_try cfg fam page = Return (settle cfg fam page))
  ∨ (∃ m, analyze_try cfg fam page = Throw m
          ∧ settle cfg fam page = analyze_catch fam m).
Proof.
  unfold settle. destruct (analyze_try cfg fam page) as [m|a] eqn:E.
  - right. eauto.
  - left. apply analyze_try_Return in E as (? & ? & ? & ? & _ & ->). done.
Qed.

Lemma analyzeFontCharacters_Return env cfg fam st st' a :
  analyzeFontCharacters env cfg fam st = (st', Return a) →
  ∃ page, newPage env (newPage_calls st) = Return page
          ∧ close page = Return tt
          ∧ a = settle cfg fam page
          ∧ st' = after_page st true.
Proof.
  intros H. destruct (browser st) eqn:Hb.
  - destruct (newPage env (newPage_calls st)) as [m|page] eqn:Hp.
    + by destruct (analyzeFontCharacters_refused env cfg fam st m Hb Hp) as [E _];
        rewrite H in E.
    + rewrite (analyzeFontCharacters_acquired env cfg fam st page Hb Hp) in H.
      exists page. destruct (close page) as [|[]]; [done|].
      by injection H as <- <-.
  - revert H. run. by rewrite Hb.
Qed.

(** C2. An analysis that completes without a fault carries a score [s]
    and a summary [d] such that [hasVisualDistinction] is true exactly
    when [s > pixelThreshold], and [autoApproved] is true exactly when
    [s > pixelThreshold] and [d.allSupported]. *)
Theorem analyzeFontCharacters_policy env cfg fam st st' a :
  analyzeFontCharacters env cfg fam st = (st', Return a) →
  error a = None →
  ∃ s d,
    okenVsApostropheDifference a = Some s
    ∧ diacriticalSupport a = Some d
    ∧ (hasVisualDistinction a = Some true ↔ pixelThreshold cfg < s)
    ∧ (hasVisualDistinction a = Some false ↔ ¬ pixelThreshold cfg < s)
    ∧ (autoApproved a = true ↔ pixelThreshold cfg < s ∧ allSupported d = true).
Proof.
  intros H Herr.
  apply analyzeFontCharacters_Return in H as (page & _ & _ & -> & _).
  destruct (settle_cases cfg fam page) as [[_ E]|(m & _ & E)].
  - apply analyze_try_Return in E as (okina & apostrophe & d & shot & _ & E).
    rewrite E. simpl. exists (compareImages okina apostrophe), d.
    split; [done|]. split; [done|].
    destruct (Z.ltb_spec (pixelThreshold cfg) (compareImages okina apostrophe))
      as [Hlt|Hge]; simpl.
    + split; [done|]. split; [split; [done|intros Hn; by destruct Hn]|].
      split; [by intros ->|by intros [_ ->]].
    + split; [split; [done|lia]|]. split; [split; [lia|done]|].
      split; [done|intros [? _]; lia].
  - by rewrite E in Herr.
Qed.

Lemma analyzeFontCharacters_policy_witness :
  ∃ s d,
    okenVsApostropheDifference (settle Samples.cfg "A" (Samples.page 160 100 Samples.wide))
    = Some s
    ∧ diacriticalSupport (settle Samples.cfg "A" (Samples.page 160 100 Samples.wide))
      = Some d
    ∧ (hasVisualDistinction (settle Samples.cfg "A" (Samples.page 160 100 Samples.wide))
       = Some true ↔ pixelThreshold Samples.cfg < s)
    ∧ (hasVisualDistinction (settle Samples.cfg "A" (Samples.page 160 100 Samples.wide))
       = Some false ↔ ¬ pixelThreshold Samples.cfg < s)
    ∧ (autoApproved (settle Samples.cfg "A" (Samples.page 160 100 Samples.wide)) = true
       ↔ pixelThreshold Samples.cfg < s ∧ allSupported d = true).
Proof.
  apply (analyzeFontCharacters_policy
           (Samples.env Samples.three_pages Samples.catalog) Samples.cfg "A"
           Samples.ready (after_page Samples.ready true)).
  - by vm_compute.
  - by vm_compute.
Defined.

(** C5. Once [analyzeFontCharacters] has acquired its page, [close] is
    called on that page before the analysis settles, whatever happens in
    between: the calls made are [newPage] and then [close] on the same
    page, on every script of the page; and when [close] itself succeeds
    the analysis resolves and the page is no longer open. *)
Theorem analyzeFontCharacters_closes_page env cfg fam st page :
  browser st = true →
  newPage env (newPage_calls st) = Return page →
  let p := newPage_calls st in
  let '(st', r) := analyzeFontCharacters env cfg fam st in
  trace st' = EvClose p :: EvNewPage p :: trace st
  ∧ (close page = Return tt →
     r = Return (settle cfg fam page) ∧ p ∉ open_pages st').
Proof.
  intros Hb Hp. rewrite (analyzeFontCharacters_acquired env cfg fam st page Hb Hp).
  destruct (close page) as [m|[]]; simpl.
  - split; [done|]. discriminate.
  - split; [done|]. intros _. split; [done|].
    intros Hin. apply list_elem_of_filter in Hin as [Hne _]. done.
Qed.

Lemma analyzeFontCharacters_closes_page_witness :
  let '(st', r) :=
    analyzeFontCharacters (Samples.env Samples.one_broken Samples.catalog)
      Samples.cfg "B"
      {| browser := true; newPage_calls := 1; clock_reads := 1;
         open_pages := []; trace := [EvClose 0; EvNewPage 0] |} in
  trace st' = [EvClose 1; EvNewPage 1; EvClose 0; EvNewPage 0]
  ∧ (close Samples.broken_page = Return tt →
     r = Return (settle Samples.cfg "B" Samples.broken_page)
     ∧ 1%nat ∉ open_pages st').
Proof.
  apply (analyzeFontCharacters_closes_page
           (Samples.env Samples.one_broken Samples.catalog) Samples.cfg "B"
           {| browser := true; newPage_calls := 1; clock_reads := 1;
              open_pages := []; trace := [EvClose 0; EvNewPage 0] |}
           Samples.broken_page); reflexivity.
Defined.

End AnalyzeFont.

(** ** The batch *)

Section BatchOrchestrator.
Import Scanner Notions.

Lemma fetchGoogleFonts_state env offset limit st :
  (fetchGoogleFonts env offset limit st).1 = st.
Proof.
  unfold fetchGoogleFonts, try_catch, mbind, M_bind, lift, throw, mret, M_ret.
  by destruct (axios_get env).
Qed.

Lemma scan_fonts_cons env cfg label font rest acc st :
  scan_fonts env cfg label (font :: rest) acc st
  = match analyzeFontCharacters env cfg (family font) st with
    | (st1, Throw m) => (st1, Throw m)
    | (st1, Return a) =>
        scan_fonts env cfg label rest
          (acc ++ [tag font a (toISOString env (clock_reads st1)) label]) (tick st1)
    end.
Proof.
  simpl. unfold mbind at 1, M_bind at 1.
  destruct (analyzeFontCharacters env cfg (family font) st) as [st1 [m|a]]; done.
Qed.

(** When every page opens and closes, the loop runs to its end and each
    font gets the object its own page settles to. *)
Lemma scan_fonts_pages env cfg label fonts :
  ∀ pages st acc,
    browser st = true →
    length pages = length fonts →
    (∀ i page, pages !! i = Some page →
       newPage env (newPage_calls st + i) = Return page ∧ close page = Return tt) →
    ∃ st', scan_fonts env cfg label fonts acc st
           = (st', Return (acc ++ imap (result_on env cfg label st) (zip fonts pages))).
Proof.
  induction fonts as [|font fonts IH]; intros pages st acc Hb Hlen Hpages.
  - exists st. simpl. by rewrite app_nil_r.
  - destruct pages as [|page pages]; [done|].
    destruct (Hpages 0%nat page eq_refl) as [Hp Hc].
    rewrite Nat.add_0_r in Hp.
    rewrite scan_fonts_cons, (analyzeFontCharacters_acquired _ _ _ _ _ Hb Hp), Hc.
    destruct (IH pages (tick (after_page st true))
                (acc ++ [tag font (settle cfg (family font) page)
                           (toISOString env (clock_reads (after_page st true))) label]))
      as [st' ->].
    + done.
    + simpl in Hlen. lia.
    + intros i pg Hi. simpl.
      replace (S (newPage_calls st + i)) with (newPage_calls st + S i)%nat by lia.
      by apply Hpages.
    + exists st'. f_equal. f_equal. rewrite <- app_assoc. f_equal. simpl.
      f_equal.
      { unfold result_on. simpl. by rewrite Nat.add_0_r. }
      apply imap_ext. intros i [f pg] _. unfold result_on. simpl.
      by replace (S (clock_reads st + i)) with (clock_reads st + S i)%nat by lia.
Qed.

(** C3, as the code has it.  For a batch of N fetched fonts whose pages
    all open and close, [scanFontBatch] resolves to N results in the
    order of the fonts.  A font whose analysis faults in between, in the
    guarded region, gets a result that carries from the analysis only
    [fontFamily] and [error], with [autoApproved = false]; every other
    font gets the object of its own completed analysis, whatever happened
    to the others. *)
Theorem scanFontBatch_absorbs_guarded_faults env cfg offset limit st fonts pages :
  browser st = true →
  (fetchGoogleFonts env offset (Some (or_default limit (batchSize cfg))) st).2
  = Return fonts →
  length pages = length fonts →
  (∀ i page, pages !! i = Some page →
     newPage env (newPage_calls st + i) = Return page ∧ close page = Return tt) →
  ∃ st' results,
    scanFontBatch env cfg offset limit st = (st', Return results)
    ∧ length results = length fonts
    ∧ ∀ i font page,
        fonts !! i = Some font → pages !! i = Some page →
        ∃ r, results !! i = Some r
             ∧ googleFontData r = font
             ∧ scanBatch r = batch_label cfg offset limit
             ∧ match analyze_try cfg (family font) page with
               | Return a => analysis r = a ∧ error a = None
               | Throw m =>
                   analysis r = {| fontFamily := family font;
                                   okenVsApostropheDifference := None;
                                   hasVisualDistinction := None;
                                   diacriticalSupport := None;
                                   phrasePreview := None;
                                   error := Some m;
                                   autoApproved := false |}
               end.
Proof.
  intros Hb Hfetch Hlen Hpages.
  pose proof (fetchGoogleFonts_state env offset
                (Some (or_default limit (batchSize cfg))) st) as Hst.
  destruct (scan_fonts_pages env cfg (batch_label cfg offset limit) fonts pages st []
              Hb Hlen Hpages) as [st' Hscan].
  exists st', (imap (result_on env cfg (batch_label cfg offset limit) st) (zip fonts pages)).
  split; [|split].
  - unfold scanFontBatch, mbind, M_bind.
    destruct (fetchGoogleFonts env offset _ st) as [st0 r]. simpl in *. by subst.
  - rewrite length_imap, length_zip_with. lia.
  - intros i font page Hf Hp.
    exists (result_on env cfg (batch_label cfg offset limit) st i (font, page)).
    split.
    { by rewrite list_lookup_imap, lookup_zip_with, Hf, Hp. }
    unfold result_on. simpl. split; [by destruct font|]. split; [done|].
    destruct (settle_cases cfg (family font) page) as [[Herr E]|(m & E & Hs)];
      rewrite E; [done|]. by rewrite Hs.
Qed.

Lemma scanFontBatch_absorbs_guarded_faults_witness :
  ∃ st' results,
    scanFontBatch (Samples.env Samples.one_broken Samples.catalog) Samples.cfg 0 None
      Samples.ready = (st', Return results)
    ∧ length results = length Samples.catalog
    ∧ ∀ i font page,
        Samples.catalog !! i = Some font → Samples.broken_pages !! i = Some page →
        ∃ r, results !! i = Some r
             ∧ googleFontData r = font
             ∧ scanBatch r = batch_label Samples.cfg 0 None
             ∧ match analyze_try Samples.cfg (family font) page with
               | Return a => analysis r = a ∧ error a = None
               | Throw m =>
                   analysis r = {| fontFamily := family font;
                                   okenVsApostropheDifference := None;
                                   hasVisualDistinction := None;
                                   diacriticalSupport := None;
                                   phrasePreview := None;
                                   error := Some m;
                                   autoApproved := false |}
               end.
Proof.
  apply (scanFontBatch_absorbs_guarded_faults
           (Samples.env Samples.one_broken Samples.catalog) Samples.cfg 0 None
           Samples.ready Samples.catalog Samples.broken_pages).
  - reflexivity.
  - reflexivity.
  - reflexivity.
  - intros [|[|[|i]]] page; simpl; intros [= <-]; split; reflexivity.
Defined.

(** C3 as stated fails when the fault is raised by [newPage], which the
    guard does not cover: of three fonts the first is analysed, the
    engine refuses the page of the second, and the batch rejects with
    that fault instead of resolving to three results. *)
Lemma scanFontBatch_aborts_when_page_refused :
  (∃ st a, analyzeFontCharacters (Samples.env Samples.one_refused Samples.catalog)
             Samples.cfg "A" Samples.ready = (st, Return a))
  ∧ (scanFontBatch (Samples.env Samples.one_refused Samples.catalog) Samples.cfg 0 None
       Samples.ready).2
    = Throw "Protocol error (Target.createTarget): Target closed."
  ∧ ¬ ∃ st' results,
        scanFontBatch (Samples.env Samples.one_refused Samples.catalog) Samples.cfg
          0 None Samples.ready = (st', Return results)
        ∧ length results = length Samples.catalog.
Proof.
  split; [|split].
  - eexists _, _. by vm_compute.
  - by vm_compute.
  - intros (st' & results & H & _).
    apply (f_equal snd) in H. vm_compute in H. discriminate H.
Qed.

End BatchOrchestrator.

(** ** Run exclusivity *)

Section ScanRunTracker.
Import Server.

Variable defaults : list ScanBatchRow → Z → ScanBatchRow.

Lemma select_running_eq db :
  select_running db
  = (db, Return (id <$> filter (λ r, status r = "running") (scan_batches db))).
Proof. reflexivity. Qed.

(** C4. A request to start a scan while some batch is [running] is
    answered 409 with the identifier of a running batch; the database is
    left as it was and no scan is started. *)
Theorem scan_start_conflict t body db :
  (∃ r, r ∈ scan_batches db ∧ status r = "running") →
  ∃ running,
    scan_start defaults t body db
    = (db, Return (Conflict "A scan is already running" (id running), None))
    ∧ running ∈ scan_batches db
    ∧ status running = "running"
    ∧ http_status (Conflict "A scan is already running" (id running)) = 409.
Proof.
  intros (r & Hr & Hs).
  assert (r ∈ filter (λ r, status r = "running") (scan_batches db)) as Hin
    by by apply list_elem_of_filter.
  destruct (filter (λ r, status r = "running") (scan_batches db))
    as [|running rest] eqn:E.
  - by apply elem_of_nil in Hin.
  - assert (running ∈ filter (λ r, status r = "running") (scan_batches db)) as Hrun
      by (rewrite E; left).
    apply list_elem_of_filter in Hrun as [Hstatus Hmem].
    exists running. split; [|done].
    unfold scan_start, try_catch, mbind, M_bind. rewrite select_running_eq, E.
    reflexivity.
Qed.

(** When no batch is running the handler does create one and starts its
    scan: the rejection above is not the only answer. *)
Lemma scan_start_creates t body db :
  (∀ r, r ∈ scan_batches db → status r ≠ "running") →
  ∃ db' batchId batchNumber offset limit scan,
    scan_start defaults t body db
    = (db', Return (Started "Scan started" batchId batchNumber offset limit, Some scan))
    ∧ length (scan_batches db') = S (length (scan_batches db))
    ∧ scan_batchId scan = batchId.
Proof.
  intros Hnone.
  assert (filter (λ r, status r = "running") (scan_batches db) = []) as E.
  { destruct (filter _ (scan_batches db)) as [|r rest] eqn:E; [done|].
    assert (r ∈ filter (λ r, status r = "running") (scan_batches db)) as Hr
      by (rewrite E; left).
    apply list_elem_of_filter in Hr as [Hs Hr]. by destruct (Hnone r Hr). }
  eexists _, _, _, _, _, _.
  unfold scan_start, try_catch, mbind, M_bind. rewrite select_running_eq, E.
  simpl. split; [reflexivity|]. split; [|done].
  unfold modify, set_batches. simpl. rewrite length_app. simpl. lia.
Qed.

End ScanRunTracker.

Lemma scan_start_conflict_witness :
  ∃ running,
    Server.scan_start Samples.schema_defaults 1700000600000 Samples.no_body Samples.busy
    = (Samples.busy,
       Return (Server.Conflict "A scan is already running" (Server.id running), None))
    ∧ running ∈ Server.scan_batches Samples.busy
    ∧ Server.status running = "running"
    ∧ Server.http_status
        (Server.Conflict "A scan is already running" (Server.id running)) = 409.
Proof.
  apply (scan_start_conflict Samples.schema_defaults 1700000600000 Samples.no_body
           Samples.busy).
  exists Samples.running_batch. split; [left|reflexivity].
Defined.

(** ** The periodic trigger *)

Section PeriodicTrigger.
Import Server.

(** Whatever the time and the table, the callback changes nothing. *)
Lemma scheduled_scan_state t db : (scheduled_scan t db).1 = db.
Proof.
  unfold scheduled_scan, select_last_incremental, select_running, try_catch,
    mbind, M_bind, mret, M_ret, get. simpl.
  repeat case_match; simplify_eq; done.
Qed.

(** Below the interval the callback does not even look for a running
    batch: it writes nothing to the console. *)
Lemma scheduled_scan_too_soon t db last :
  (select_last_incremental db).2 = Return (Some last) →
  (t - last) `div` day_ms < 14 →
  scheduled_scan t db = (db, Return []).
Proof.
  unfold scheduled_scan, mbind, M_bind.
  destruct (select_last_incremental db) as [db' r] eqn:E.
  assert (db' = db) as -> by (by injection E as <- _).
  simpl. intros -> Hlt.
  by destruct (Z.leb_spec 14 ((t - last) `div` day_ms)); [lia|].
Qed.

(** C8, on the code.  With an empty table the trigger is due and no batch
    is running: the callback announces an incremental scan and creates
    no batch, where a start request on the same table creates one. *)
Theorem scheduled_scan_due_creates_no_batch :
  scheduled_scan 1700000000000 Samples.idle
  = (Samples.idle, Return ["🕒 Starting scheduled incremental scan...";
                           "Starting incremental scan for new fonts..."])
  ∧ length (scan_batches
              (scan_start Samples.schema_defaults 1700000000000
                 Samples.incremental_body Samples.idle).1) = 1%nat.
Proof. split; reflexivity. Qed.

End PeriodicTrigger.

(** ** The asynchronous run *)

Section AsyncRun.
Import Scanner Server Notions.

Variable procedure : InsertCall → outcome Z.

(** Every object the loop pushes comes from the [try] block (no [error])
    or from the [catch] block (not approved), and carries its font. *)
Lemma scan_fonts_Return env cfg label fonts :
  ∀ st acc st' results,
    scan_fonts env cfg label fonts acc st = (st', Return results) →
    ∃ new, results = acc ++ new
           ∧ googleFontData <$> new = fonts
           ∧ Forall (λ r, approved r → error (analysis r) = None) new.
Proof.
  induction fonts as [|font fonts IH]; intros st acc st' results H.
  - injection H as _ <-. exists []. by rewrite app_nil_r.
  - rewrite scan_fonts_cons in H.
    destruct (analyzeFontCharacters env cfg (family font) st) as [st1 [m|a]] eqn:E;
      [done|].
    apply IH in H as (new & -> & Hdata & Hnew).
    apply analyzeFontCharacters_Return in E as (page & _ & _ & -> & _).
    eexists (_ :: new). split; [by rewrite <- app_assoc|]. split.
    + simpl. f_equal; [by destruct font|done].
    + constructor; [|done]. unfold approved. simpl.
      destruct (settle_cases cfg (family font) page) as [[Herr _]|(m & _ & ->)];
        [done|]. simpl. done.
Qed.

Lemma scanFontBatch_Return env cfg offset limit st st' results :
  scanFontBatch env cfg offset limit st = (st', Return results) →
  ∃ fonts,
    (fetchGoogleFonts env offset (Some (or_default limit (batchSize cfg))) st).2
    = Return fonts
    ∧ googleFontData <$> results = fonts
    ∧ Forall (λ r, approved r → error (analysis r) = None) results.
Proof.
  unfold scanFontBatch, mbind, M_bind. intros H.
  destruct (fetchGoogleFonts env offset _ st) as [st1 [m|fonts]]; [done|].
  apply scan_fonts_Return in H as (new & -> & Hdata & Hnew).
  exists fonts. done.
Qed.

Lemma runScan_Return env cfg options st st' results :
  runScan env cfg options st = (st', Return results) →
  ∃ st1 st2,
    scanFontBatch env cfg (default 0 (run_offset options))
      (Some (default (batchSize cfg) (run_limit options))) st1
    = (st2, Return results).
Proof.
  unfold runScan, try_finally, try_catch. unfold mbind at 1, M_bind at 1.
  destruct (initialize env st) as [st1 [m|[]]].
  { unfold throw. destruct (cleanup env st1) as [? [|]]; intros [= _ ?]; done. }
  unfold mbind at 1, M_bind at 1.
  destruct (scanFontBatch env cfg _ _ st1) as [st2 [m|rs]] eqn:E.
  { unfold throw. destruct (cleanup env st2) as [? [|]]; intros [= _ ?]; done. }
  intros H. exists st1, st2. rewrite E. do 2 f_equal.
  revert H. unfold mbind, M_bind, saveResults, lift, mret, M_ret, throw.
  destruct (default true (run_saveToDisk options)), (writeFile env); simpl;
    destruct (cleanup env st2) as [? [|]]; intros [= _ ?]; done.
Qed.

Lemma insert_results_unfailed info r rest p a :
  unfailed r →
  insert_results procedure info (r :: rest) p a
  = (_ ← insertScanResult procedure r info;
     insert_results procedure info rest (p + 1)
       (if autoApproved (analysis r) then a + 1 else a)).
Proof. unfold unfailed. intros Hr. simpl. by rewrite Hr. Qed.

Lemma insert_results_failed info r rest p a :
  ¬ unfailed r →
  insert_results procedure info (r :: rest) p a
  = insert_results procedure info rest p a.
Proof.
  unfold unfailed. intros Hr. simpl.
  by destruct (not_str (error (analysis r))).
Qed.

Lemma insert_results_ok info results :
  ∀ db p a,
    (∀ r, r ∈ results → unfailed r → ∃ k, procedure (call_of info r) = Return k) →
    insert_results procedure info results p a db
    = ({| scan_batches := scan_batches db;
          written := written db ++ (call_of info <$> filter unfailed results) |},
       Return (p + Z.of_nat (length (filter unfailed results)),
               a + Z.of_nat (length (filter (λ r, unfailed r ∧ approved r) results)))).
Proof.
  induction results as [|r results IH]; intros db p a Hok.
  - simpl. rewrite app_nil_r, !Z.add_0_r. by destruct db.
  - rewrite !filter_cons.
    destruct (decide (unfailed r)) as [Hr|Hr].
    + rewrite insert_results_unfailed by done.
      destruct (Hok r) as [k Hk]; [left|done|].
      unfold mbind at 1, M_bind at 1, insertScanResult, try_catch.
      unfold mbind at 1, M_bind at 1, lift. fold (call_of info r). rewrite Hk. simpl.
      rewrite IH by (intros r' ?; apply Hok; by right). simpl.
      rewrite <- app_assoc. simpl.
      destruct (decide (unfailed r ∧ approved r)) as [[_ Ha]|Hn].
      * unfold approved in Ha. rewrite Ha. simpl length. do 3 f_equal; lia.
      * destruct (autoApproved (analysis r)) eqn:Ha; [by destruct Hn|].
        do 3 f_equal; lia.
    + rewrite insert_results_failed by done.
      rewrite IH by (intros r' ?; apply Hok; by right).
      by rewrite decide_False by (by intros [? _]).
Qed.

Lemma approved_unfailed results :
  Forall (λ r, approved r → error (analysis r) = None) results →
  filter (λ r, unfailed r ∧ approved r) results = filter approved results.
Proof.
  induction 1 as [|r results Hr _ IH]; [done|].
  rewrite !filter_cons, IH.
  destruct (decide (approved r)) as [Ha|Ha].
  - rewrite decide_True; [done|]. split; [|done].
    unfold unfailed. by rewrite (Hr Ha).
  - by rewrite decide_False by (by intros [_ ?]).
Qed.

(** C6, as the code has it.  When the run completes (the scan resolved
    and every call of the stored procedure returned), the results are one
    per fetched font, each with the font's descriptor as its metadata; a
    record is written, in order, for every result that passes the guard
    [!result.error] and for no other; and the batch becomes [completed]
    with [fonts_processed] the number of records written and
    [fonts_approved] the number of auto-approved results. *)
Theorem scanFontsAsync_completed env t batchId offset batchSize pixelThreshold db st results :
  runScan env
    (constructor {| opt_batchSize := Some batchSize;
                    opt_pixelThreshold := Some pixelThreshold |})
    {| run_offset := Some offset; run_limit := Some batchSize;
       run_saveToDisk := Some false |}
    initial_state = (st, Return results) →
  (∀ r, r ∈ results → unfailed r →
     ∃ k, procedure (call_of ("batch-" +:+ pretty batchId) r) = Return k) →
  ∃ db' st1 fonts,
    scanFontsAsync procedure env t batchId offset batchSize pixelThreshold db
    = (db', Return tt)
    ∧ (fetchGoogleFonts env offset
         (Some (or_default (Some batchSize)
                  (Scanner.batchSize
                     (constructor {| opt_batchSize := Some batchSize;
                                     opt_pixelThreshold := Some pixelThreshold |}))))
         st1).2 = Return fonts
    ∧ googleFontData <$> results = fonts
    ∧ written db'
      = written db
        ++ (call_of ("batch-" +:+ pretty batchId) <$> filter unfailed results)
    ∧ scan_batches db'
      = completed_table t batchId
          (Z.of_nat (length (filter unfailed results)))
          (Z.of_nat (length (filter approved results)))
          (scan_batches db).
Proof.
  intros Hrun Hok.
  destruct (runScan_Return _ _ _ _ _ _ Hrun) as (st1 & st2 & Hbatch).
  destruct (scanFontBatch_Return _ _ _ _ _ _ _ Hbatch) as (fonts & Hfetch & Hdata & Hsound).
  eexists _, st1, fonts.
  split; [|split; [exact Hfetch|split; [exact Hdata|]]].
  - unfold scanFontsAsync, try_catch. unfold mbind at 1, M_bind at 1, lift.
    rewrite Hrun. simpl. unfold mbind at 1, M_bind at 1.
    rewrite (insert_results_ok _ _ _ _ _ Hok). reflexivity.
  - simpl. rewrite (approved_unfailed results Hsound), !Z.add_0_l. done.
Qed.

End AsyncRun.

Lemma scanFontsAsync_completed_witness :
  ∃ db' st1 fonts,
    Server.scanFontsAsync Samples.procedure_ok
      (Samples.env Samples.three_pages Samples.catalog) 1700000600000 7 0 50 50
      Samples.busy = (db', Return tt)
    ∧ (Scanner.fetchGoogleFonts (Samples.env Samples.three_pages Samples.catalog) 0
         (Some (or_default (Some 50) (Scanner.batchSize Samples.async_cfg))) st1).2
      = Return fonts
    ∧ Scanner.googleFontData
        <$> Samples.scanned (Samples.env Samples.three_pages Samples.catalog) = fonts
    ∧ Server.written db'
      = Server.written Samples.busy
        ++ (Notions.call_of ("batch-" +:+ pretty 7)
              <$> filter Notions.unfailed
                    (Samples.scanned (Samples.env Samples.three_pages Samples.catalog)))
    ∧ Server.scan_batches db'
      = Notions.completed_table 1700000600000 7
          (Z.of_nat (length (filter Notions.unfailed
              (Samples.scanned (Samples.env Samples.three_pages Samples.catalog)))))
          (Z.of_nat (length (filter Notions.approved
              (Samples.scanned (Samples.env Samples.three_pages Samples.catalog)))))
          (Server.scan_batches Samples.busy).
Proof.
  apply (scanFontsAsync_completed Samples.procedure_ok
           (Samples.env Samples.three_pages Samples.catalog) 1700000600000 7 0 50 50
           Samples.busy
           (Scanner.runScan (Samples.env Samples.three_pages Samples.catalog)
              Samples.async_cfg Samples.async_options Scanner.initial_state).1
           (Samples.scanned (Samples.env Samples.three_pages Samples.catalog))).
  - by vm_compute.
  - intros r _ _. exists 1. reflexivity.
Defined.

(** The example of the specification: fonts A, B, C with scores 60, 10
    and 70 against a threshold of 50, the second lacking a glyph. *)
Example three_fonts_two_approved :
  let env := Samples.env Samples.three_pages Samples.catalog in
  let db' := (Server.scanFontsAsync Samples.procedure_ok env 1700000600000 7 0 50 50
                Samples.busy).1 in
  (Scanner.okenVsApostropheDifference ∘ Scanner.analysis) <$> Samples.scanned env
  = [Some 60; Some 10; Some 70]
  ∧ (Scanner.autoApproved ∘ Scanner.analysis) <$> Samples.scanned env
    = [true; false; true]
  ∧ Server.status <$> Server.scan_batches db' = ["completed"]
  ∧ Server.fonts_processed <$> Server.scan_batches db' = [3]
  ∧ Server.fonts_approved <$> Server.scan_batches db' = [2].
Proof. by vm_compute. Qed.

(** C6 as stated fails when a font's analysis failed: of three fonts the
    second cannot be loaded; the run completes, no record is written for
    that font and [fonts_processed] is 2, not the 3 fonts of the batch. *)
Lemma scanFontsAsync_skips_failed_font :
  let env := Samples.env Samples.one_broken Samples.catalog in
  let db' := (Server.scanFontsAsync Samples.procedure_ok env 1700000600000 7 0 50 50
                Samples.busy).1 in
  Scanner.family <$> (Scanner.googleFontData <$> Samples.scanned env) = ["A"; "B"; "C"]
  ∧ Server.status <$> Server.scan_batches db' = ["completed"]
  ∧ Server.arg_fontFamily <$> Server.written db' = ["A"; "C"]
  ∧ Server.fonts_processed <$> Server.scan_batches db' = [2]
  ∧ Server.fonts_processed <$> Server.scan_batches db'
    ≠ [Z.of_nat (length (Samples.scanned env))].
Proof.
  split; [by vm_compute|]. split; [by vm_compute|]. split; [by vm_compute|].
  split; [by vm_compute|]. intros H. vm_compute in H. discriminate H.
Qed.

(** * Further properties of the code *)

(** ** The difference score, continued *)

Section ScoreFacts.
Import Scanner Notions.

Lemma differing_positions_nil (a b : Buffer) :
  length a = length b →
  differing_positions a b = [] → a = b.
Proof.
  intros Hlen Hnil. apply list_eq. intros i.
  destruct (decide (i < length a)%nat) as [Hi|Hi].
  - destruct (decide (a !! i = b !! i)) as [|Hne]; [done|].
    assert (i ∈ differing_positions a b) as Hin.
    { apply list_elem_of_filter. split; [done|]. apply elem_of_seq. lia. }
    rewrite Hnil in Hin. by apply elem_of_nil in Hin.
  - rewrite !lookup_ge_None_2 by lia. done.
Qed.

Lemma differing_positions_refl (a : Buffer) : differing_positions a a = [].
Proof.
  unfold differing_positions.
  induction (seq 0 (length a)) as [|i l IH]; [done|].
  by rewrite filter_cons_False by (by intros ?).
Qed.

Lemma compareImages_refl (a : Buffer) : compareImages a a = 0.
Proof. by rewrite compareImages_same, differing_positions_refl. Qed.

(** The score is zero exactly when the two buffers are the same. *)
Theorem compareImages_zero_iff (a b : Buffer) :
  compareImages a b = 0 ↔ a = b.
Proof.
  split.
  - intros H. destruct (decide (length a = length b)) as [E|N].
    + rewrite compareImages_same in H by done.
      apply differing_positions_nil; [done|].
      destruct (differing_positions a b); [done|]. simpl in H. lia.
    + rewrite compareImages_differ in H by done. lia.
  - intros <-. apply compareImages_refl.
Qed.

(** The score never exceeds the length of the longer buffer. *)
Theorem compareImages_bound (a b : Buffer) :
  compareImages a b ≤ Z.of_nat (length a `max` length b).
Proof.
  destruct (decide (length a = length b)) as [E|N].
  - rewrite compareImages_same by done. unfold differing_positions.
    pose proof (length_filter (λ i, a !! i ≠ b !! i) (seq 0 (length a))) as H.
    rewrite length_seq in H. lia.
  - rewrite compareImages_differ by done. lia.
Qed.

(** Two snapshots with the same bytes are never a visual distinction,
    and the font is not approved, under a threshold that is not
    negative. *)
Theorem identical_snapshots_not_approved cfg fam page handle1 handle2 shot a :
  0 ≤ pixelThreshold cfg →
  query page "#okina-test" = Return (Some handle1) →
  query page "#apostrophe-test" = Return (Some handle2) →
  screenshot handle1 = Return shot →
  screenshot handle2 = Return shot →
  analyze_try cfg fam page = Return a →
  okenVsApostropheDifference a = Some 0
  ∧ hasVisualDistinction a = Some false
  ∧ autoApproved a = false.
Proof.
  intros Hthr Hq1 Hq2 Hs1 Hs2.
  unfold analyze_try, mbind, outcome_bind, mret, outcome_ret.
  rewrite Hq1, Hq2. simpl. rewrite Hs1, Hs2.
  assert (compareImages shot shot = 0) as -> by apply compareImages_refl.
  destruct (Z.ltb_spec (pixelThreshold cfg) 0) as [?|_]; [lia|].
  intros H. repeat case_match; try discriminate H. by injection H as <-.
Qed.

Lemma identical_snapshots_not_approved_witness :
  okenVsApostropheDifference (settle Samples.cfg "A" (Samples.page 100 100 Samples.wide))
  = Some 0
  ∧ hasVisualDistinction (settle Samples.cfg "A" (Samples.page 100 100 Samples.wide))
    = Some false
  ∧ autoApproved (settle Samples.cfg "A" (Samples.page 100 100 Samples.wide)) = false.
Proof.
  apply (identical_snapshots_not_approved Samples.cfg "A"
           (Samples.page 100 100 Samples.wide) (Samples.element 100)
           (Samples.element 100) (replicate 100 x00)).
  - by vm_compute.
  - reflexivity.
  - reflexivity.
  - reflexivity.
  - reflexivity.
  - by vm_compute.
Defined.

End ScoreFacts.

(** ** The font directory window, continued *)

Section WindowFacts.
Import Scanner Notions.

Lemma slice_segment {A} (l : list A) (start : Z) (end_ : option Z) :
  ∃ pre post, l = pre ++ slice l start end_ ++ post.
Proof.
  unfold slice.
  set (k := Z.to_nat (clamp_index (Z.of_nat (length l)) start)).
  set (n := Z.to_nat _).
  exists (take k l), (drop n (drop k l)).
  by rewrite take_drop, take_drop.
Qed.

Lemma slice_negative_end {A} (l : list A) (e : Z) :
  e < 0 →
  slice l 0 (Some e) = take (length l - Z.to_nat (- e)) l.
Proof.
  intros He. unfold slice, clamp_index.
  destruct (Z.ltb_spec e 0) as [_|?]; [|lia]. simpl.
  replace (Z.to_nat (Z.min 0 (Z.of_nat (length l)))) with 0%nat by lia.
  rewrite drop_0. f_equal. lia.
Qed.

Lemma fetchGoogleFonts_Return env offset limit st st' fonts :
  fetchGoogleFonts env offset limit st = (st', Return fonts) →
  ∃ s, axios_get env = Return s.
Proof.
  unfold fetchGoogleFonts, try_catch, mbind, M_bind, lift, throw.
  destruct (axios_get env) as [m|s]; [done|]. eauto.
Qed.

(** Whatever the offset and the limit, negative ones included, the fonts
    fetched are a contiguous run of the directory's answer, in its order. *)
Theorem fetchGoogleFonts_segment env offset limit st s :
  axios_get env = Return s →
  ∃ fonts pre post,
    fetchGoogleFonts env offset limit st = (st, Return fonts)
    ∧ s = pre ++ fonts ++ post.
Proof.
  intros H. unfold fetchGoogleFonts, try_catch, mbind, M_bind, lift, mret, M_ret.
  rewrite H.
  assert (∃ pre1 post1, s = pre1 ++ (if 0 <? offset then slice s offset None else s)
                                ++ post1) as (pre1 & post1 & H1).
  { destruct (0 <? offset); [apply slice_segment|].
    exists [], []. by rewrite app_nil_r. }
  set (fonts1 := if 0 <? offset then slice s offset None else s) in *.
  assert (∃ pre2 post2,
            fonts1 = pre2 ++ match limit with
                             | Some l => if truthy l then slice fonts1 0 (Some l)
                                         else fonts1
                             | None => fonts1
                             end ++ post2) as (pre2 & post2 & H2).
  { destruct limit as [l|]; [destruct (truthy l)|];
      try apply slice_segment; exists [], []; by rewrite app_nil_r. }
  eexists _, (pre1 ++ pre2), (post2 ++ post1). split; [reflexivity|].
  rewrite H1 at 1. rewrite H2 at 1. by rewrite <- !app_assoc.
Qed.

Lemma fetchGoogleFonts_segment_witness :
  ∃ fonts pre post,
    fetchGoogleFonts (Samples.env Samples.three_pages Samples.catalog) (-1) (Some (-1))
      Samples.ready = (Samples.ready, Return fonts)
    ∧ Samples.catalog = pre ++ fonts ++ post.
Proof.
  apply (fetchGoogleFonts_segment (Samples.env Samples.three_pages Samples.catalog)
           (-1) (Some (-1)) Samples.ready Samples.catalog).
  reflexivity.
Defined.

(** A negative limit does not select an empty window: it drops that many
    fonts from the end of what is left after the offset. *)
Theorem fetchGoogleFonts_negative_limit env offset limit st s :
  axios_get env = Return s →
  limit < 0 →
  fetchGoogleFonts env offset (Some limit) st
  = (st, Return (take (length (drop (Z.to_nat offset) s) - Z.to_nat (- limit))
                   (drop (Z.to_nat offset) s))).
Proof.
  intros H Hl. unfold fetchGoogleFonts, try_catch, mbind, M_bind, lift, mret, M_ret.
  rewrite H. unfold truthy. destruct (Z.eqb_spec limit 0) as [?|_]; [lia|]. simpl.
  rewrite slice_negative_end by done.
  destruct (Z.ltb_spec 0 offset) as [Hpos|Hneg].
  - rewrite <- (Z2Nat.id offset) at 1 2 by lia. by rewrite slice_drop.
  - by replace (Z.to_nat offset) with 0%nat by lia.
Qed.

Lemma fetchGoogleFonts_negative_limit_witness :
  fetchGoogleFonts (Samples.env Samples.three_pages Samples.catalog) 1 (Some (-1))
    Samples.ready
  = (Samples.ready, Return [Samples.font "B"]).
Proof.
  apply (fetchGoogleFonts_negative_limit
           (Samples.env Samples.three_pages Samples.catalog) 1 (-1) Samples.ready
           Samples.catalog); [reflexivity|lia].
Defined.

Lemma or_default_constructor opts limit :
  or_default limit (batchSize (constructor opts)) ≠ 0.
Proof.
  assert (batchSize (constructor opts) ≠ 0) as Hb.
  { unfold constructor, or_default, truthy. simpl.
    destruct (opt_batchSize opts) as [b|]; [|done].
    by destruct (Z.eqb_spec b 0). }
  unfold or_default, truthy. destruct limit as [l|]; [|done].
  by destruct (Z.eqb_spec l 0).
Qed.

(** A scanner made by the constructor never scans without a limit: the
    limit in force, [limit || this.batchSize], is never [0], and when it
    is positive a batch that resolves has at most that many results. *)
Theorem scanFontBatch_size opts env offset limit st st' results :
  scanFontBatch env (constructor opts) offset limit st = (st', Return results) →
  or_default limit (batchSize (constructor opts)) ≠ 0
  ∧ (0 < or_default limit (batchSize (constructor opts)) →
     Z.of_nat (length results) ≤ or_default limit (batchSize (constructor opts))).
Proof.
  intros H. split; [apply or_default_constructor|]. intros Hpos.
  apply scanFontBatch_Return in H as (fonts & Hfetch & Hdata & _).
  destruct (fetchGoogleFonts env offset _ st) as [st1 r] eqn:E. simpl in Hfetch.
  subst r. destruct (fetchGoogleFonts_Return _ _ _ _ _ _ E) as [s Hs].
  rewrite (fetchGoogleFonts_limited env st offset _ s Hs Hpos) in E.
  injection E as _ <-. rewrite <- (length_fmap googleFontData), Hdata.
  rewrite length_take. unfold constructor in *. simpl in *. lia.
Qed.

Lemma scanFontBatch_size_witness :
  or_default (Some 2) (batchSize (constructor {| opt_batchSize := Some 0;
                                                 opt_pixelThreshold := None |})) ≠ 0
  ∧ (0 < or_default (Some 2)
           (batchSize (constructor {| opt_batchSize := Some 0;
                                      opt_pixelThreshold := None |})) →
     Z.of_nat (length (match (scanFontBatch
                                (Samples.env Samples.three_pages Samples.catalog)
                                Samples.cfg 0 (Some 2) Samples.ready).2 with
                       | Return results => results
                       | Throw _ => []
                       end))
     ≤ or_default (Some 2)
         (batchSize (constructor {| opt_batchSize := Some 0;
                                    opt_pixelThreshold := None |}))).
Proof.
  apply (scanFontBatch_size {| opt_batchSize := Some 0; opt_pixelThreshold := None |}
           (Samples.env Samples.three_pages Samples.catalog) 0 (Some 2) Samples.ready
           (scanFontBatch (Samples.env Samples.three_pages Samples.catalog)
              Samples.cfg 0 (Some 2) Samples.ready).1).
  by vm_compute.
Defined.

End WindowFacts.

(** ** The glyph probes, continued *)

Section ProbeFacts.
Import Scanner Notions.

Lemma lookup_foldl_insert (f : string → bool) chars (m : gmap string bool) c :
  foldl (λ m c, <[c := f c]> m) m chars !! c
  = if decide (c ∈ chars) then Some (f c) else m !! c.
Proof.
  revert m. induction chars as [|c' chars IH]; intros m.
  - destruct (decide (c ∈ [])) as [H|_]; [by apply elem_of_nil in H|done].
  - simpl foldl. rewrite IH.
    destruct (decide (c ∈ chars)) as [Hin|Hnin];
      destruct (decide (c ∈ c' :: chars)) as [H|H]; try done.
    + exfalso. apply H. by right.
    + apply elem_of_cons in H as [->|?]; [apply lookup_insert_eq|done].
    + apply lookup_insert_ne. intros ->. apply H. left.
Qed.

(** When the ten probes complete, [individual] holds, for each of the
    ten characters, whether it was measured wider than 10, and nothing
    for any other key. *)
Theorem individual_records_each_probe page results :
  probe_characters page (lowercase ++ uppercase) ∅ = Return results →
  ∃ d, testDiacriticalCharacters page = Return d
       ∧ ∀ c, individual d !! c
              = if decide (c ∈ lowercase ++ uppercase)
                then Some (glyph_supported page c) else None.
Proof.
  intros H. unfold testDiacriticalCharacters, catching, mbind, outcome_bind.
  rewrite H. eexists. split; [reflexivity|]. intros c. simpl.
  apply probe_characters_Return in H. subst results.
  by rewrite lookup_foldl_insert, lookup_empty.
Qed.

Lemma individual_records_each_probe_witness :
  ∃ d, testDiacriticalCharacters (Samples.page 110 100 Samples.narrow_a) = Return d
       ∧ ∀ c, individual d !! c
              = if decide (c ∈ lowercase ++ uppercase)
                then Some (glyph_supported (Samples.page 110 100 Samples.narrow_a) c)
                else None.
Proof.
  apply (individual_records_each_probe (Samples.page 110 100 Samples.narrow_a)
           (foldl (λ m c, <[c := glyph_supported (Samples.page 110 100 Samples.narrow_a) c]> m)
              ∅ (lowercase ++ uppercase))).
  reflexivity.
Defined.



(** When the markup has no ʻokina element, [page.$] resolves to [null]
    and taking its screenshot throws inside the guarded region: the
    analysis resolves to the error object and the page is closed. *)
Theorem missing_element_is_font_error env cfg fam st page apostrophe :
  browser st = true →
  newPage env (newPage_calls st) = Return page →
  close page = Return tt →
  setContent page = Return tt →
  waitForTimeout page = Return tt →
  query page "#okina-test" = Return None →
  query page "#apostrophe-test" = Return apostrophe →
  analyzeFontCharacters env cfg fam st
  = (after_page st true,
     Return (analyze_catch fam "Cannot read properties of null (reading 'screenshot')")).
Proof.
  intros Hb Hp Hc Hset Hwait Hq1 Hq2.
  rewrite (analyzeFontCharacters_acquired env cfg fam st page Hb Hp), Hc.
  unfold settle, analyze_try, mbind, outcome_bind.
  by rewrite Hset, Hwait, Hq1, Hq2.
Qed.

Lemma missing_element_is_font_error_witness :
  analyzeFontCharacters (Samples.env (λ _, Return Samples.page_without_okina) Samples.catalog)
    Samples.cfg "A" Samples.ready
  = (after_page Samples.ready true,
     Return (analyze_catch "A" "Cannot read properties of null (reading 'screenshot')")).
Proof.
  apply (missing_element_is_font_error
           (Samples.env (λ _, Return Samples.page_without_okina) Samples.catalog)
           Samples.cfg "A" Samples.ready Samples.page_without_okina
           (Some (Samples.element 40))); reflexivity.
Defined.

End ProbeFacts.

(** ** Pages and the browser over a whole run *)

Section LifecycleFacts.
Import Scanner Notions Lifecycle.

Ltac unfold_M :=
  unfold analyzeFontCharacters, browser_newPage, page_close, try_finally,
    try_catch, mbind, M_bind, mret, M_ret, get, modify, lift, throw, set_pages,
    log in *.

Lemma sessions_app evs1 evs2 : sessions evs1 → sessions evs2 → sessions (evs1 ++ evs2).
Proof. induction 1; intros; simpl; [done|]. constructor. auto. Qed.

Lemma try_finally_state {S A} (body : M S A) (fin : M S unit) s :
  (try_finally body fin s).1 = (fin (body s).1).1.
Proof.
  unfold try_finally. destruct (body s) as [s1 r]. simpl.
  by destruct (fin s1) as [s2 [|]].
Qed.

Lemma try_finally_result {S A} (body : M S A) (fin : M S unit) s :
  (try_finally body fin s).2
  = match (fin (body s).1).2 with
    | Throw m => Throw m
    | Return _ => (body s).2
    end.
Proof.
  unfold try_finally. destruct (body s) as [s1 r]. simpl.
  by destruct (fin s1) as [s2 [|]].
Qed.

Lemma try_catch_rethrow {S A} (body : M S A) s :
  try_catch body (λ message, throw message) s = body s.
Proof. unfold try_catch, throw. by destruct (body s) as [s1 [|]]. Qed.

Lemma cleanup_trace env s :
  browser s = true → trace (cleanup env s).1 = EvBrowserClose :: trace s.
Proof.
  intros Hb. unfold cleanup, mbind, M_bind, get, log, modify, lift. simpl.
  rewrite Hb. simpl. by destruct (browser_close env).
Qed.

(** One analysis leaves [this.browser] alone and either makes no call on
    a page or acquires one page and closes it. *)
Lemma analyzeFontCharacters_events env cfg fam st :
  browser (analyzeFontCharacters env cfg fam st).1 = browser st
  ∧ (trace (analyzeFontCharacters env cfg fam st).1 = trace st
     ∨ ∃ p, trace (analyzeFontCharacters env cfg fam st).1
            = EvClose p :: EvNewPage p :: trace st).
Proof.
  destruct (browser st) eqn:Hb.
  - destruct (newPage env (newPage_calls st)) as [m|page] eqn:Hp.
    + unfold_M. simpl. rewrite Hb. simpl. rewrite Hp. simpl. auto.
    + rewrite (analyzeFontCharacters_acquired env cfg fam st page Hb Hp).
      destruct (close page); simpl; rewrite Hb; eauto.
  - unfold_M. simpl. rewrite Hb. simpl. auto.
Qed.

Lemma scan_fonts_events env cfg label fonts :
  ∀ st acc,
    browser (scan_fonts env cfg label fonts acc st).1 = browser st
    ∧ ∃ evs, trace (scan_fonts env cfg label fonts acc st).1 = evs ++ trace st
             ∧ sessions evs.
Proof.
  induction fonts as [|font fonts IH]; intros st acc.
  - simpl. split; [done|]. exists []. split; [done|constructor].
  - rewrite scan_fonts_cons.
    destruct (analyzeFontCharacters_events env cfg (family font) st) as [Hb Ht].
    destruct (analyzeFontCharacters env cfg (family font) st) as [st1 [m|a]];
      simpl in Hb, Ht.
    + simpl. split; [done|].
      destruct Ht as [->|[p ->]].
      * exists []. split; [done|constructor].
      * exists [EvClose p; EvNewPage p]. split; [done|repeat constructor].
    + destruct (IH (tick st1) (acc ++ [tag font a (toISOString env (clock_reads st1)) label]))
        as [Hb' (evs & Ht' & Hs)].
      split; [by rewrite Hb'|]. rewrite Ht'. simpl.
      destruct Ht as [->|[p ->]].
      * by exists evs.
      * exists (evs ++ [EvClose p; EvNewPage p]). split; [by rewrite <- app_assoc|].
        apply sessions_app; [done|repeat constructor].
Qed.

Lemma scanFontBatch_events env cfg offset limit st :
  browser (scanFontBatch env cfg offset limit st).1 = browser st
  ∧ ∃ evs, trace (scanFontBatch env cfg offset limit st).1 = evs ++ trace st
           ∧ sessions evs.
Proof.
  assert (scanFontBatch env cfg offset limit st
          = match fetchGoogleFonts env offset
                    (Some (or_default limit (batchSize cfg))) st with
            | (s, Throw m) => (s, Throw m)
            | (s, Return fonts) =>
                scan_fonts env cfg (batch_label cfg offset limit) fonts [] s
            end) as -> by reflexivity.
  pose proof (fetchGoogleFonts_state env offset
                (Some (or_default limit (batchSize cfg))) st) as Hst.
  destruct (fetchGoogleFonts env offset _ st) as [st0 [m|fonts]]; simpl in Hst; subst st0.
  - simpl. split; [done|]. exists []. split; [done|constructor].
  - apply scan_fonts_events.
Qed.

(** Over a whole batch, whether it resolves or is cut short by a fault,
    every page acquired is closed before the next one is acquired: no
    page is left open and no two are open together. *)
Theorem scanFontBatch_pages_serialized env cfg offset limit st :
  ∃ evs, trace (scanFontBatch env cfg offset limit st).1 = evs ++ trace st
         ∧ sessions evs.
Proof. apply scanFontBatch_events. Qed.

(** [runScan] on a new scanner launches the browser first and, once it is
    launched, closes it last on every path, with the pages in between
    each closed in turn; when the launch fails nothing else is called and
    the run rejects with the fault of the launch. *)
Theorem runScan_browser_lifecycle env cfg options :
  match launch env with
  | Return _ =>
      ∃ evs, trace (runScan env cfg options initial_state).1
             = EvBrowserClose :: evs ++ [EvLaunch]
             ∧ sessions evs
  | Throw m =>
      trace (runScan env cfg options initial_state).1 = [EvLaunch]
      ∧ (runScan env cfg options initial_state).2 = Throw m
  end.
Proof.
  unfold runScan.
  rewrite !try_finally_state, !try_catch_rethrow.
  match goal with |- context [cleanup env (?b initial_state).1] => set (body := b) end.
  destruct (launch env) as [m|[]] eqn:Hl.
  - assert (body initial_state
            = ({| browser := false; newPage_calls := 0; clock_reads := 0;
                  open_pages := []; trace := [EvLaunch] |}, Throw m)) as Hbody.
    { unfold body, initialize, mbind, M_bind, log, modify, lift. simpl.
      by rewrite Hl. }
    split.
    + by rewrite Hbody.
    + rewrite try_finally_result, try_catch_rethrow, Hbody. reflexivity.
  - set (s1 := {| browser := true; newPage_calls := 0; clock_reads := 0;
                  open_pages := []; trace := [EvLaunch] |}).
    destruct (scanFontBatch_events env cfg (default 0 (run_offset options))
                (Some (default (batchSize cfg) (run_limit options))) s1)
      as [Hb (evs & Ht & Hs)].
    assert ((body initial_state).1
            = (scanFontBatch env cfg (default 0 (run_offset options))
                 (Some (default (batchSize cfg) (run_limit options))) s1).1) as ->.
    { unfold body, initialize. unfold mbind at 1, M_bind at 1.
      unfold mbind at 1, M_bind at 1, log, modify. simpl.
      unfold mbind at 1, M_bind at 1, lift. rewrite Hl. simpl. fold s1.
      unfold mbind at 1, M_bind at 1.
      destruct (scanFontBatch env cfg _ _ s1) as [s2 [m|results]]; [done|].
      unfold saveResults, mbind, M_bind, lift, mret, M_ret.
      by destruct (default true (run_saveToDisk options)), (writeFile env). }
    exists evs. split; [|done]. by rewrite cleanup_trace, Ht.
Qed.

(** When the font directory cannot be reached the run rejects with that
    fault: no page is acquired, and the browser is still closed. *)
Theorem runScan_fetch_failure env cfg options m :
  launch env = Return tt →
  axios_get env = Throw m →
  browser_close env = Return tt →
  runScan env cfg options initial_state
  = ({| browser := true; newPage_calls := 0; clock_reads := 0; open_pages := [];
        trace := [EvBrowserClose; EvLaunch] |}, Throw m).
Proof.
  intros Hl Ha Hc.
  unfold runScan, try_finally, try_catch, initialize, scanFontBatch, fetchGoogleFonts,
    cleanup, try_catch, mbind, M_bind, mret, M_ret, get, modify, lift, throw, log.
  simpl. rewrite Hl. simpl. rewrite Ha. simpl. by rewrite Hc.
Qed.

Lemma runScan_fetch_failure_witness :
  runScan {| launch := Return tt;
             newPage := Samples.three_pages;
             browser_close := Return tt;
             axios_get := Throw "Request failed with status code 403";
             toISOString := λ _, "2024-01-01T00:00:00.000Z";
             writeFile := Return "scan-results/out.json" |}
    Samples.async_cfg Samples.async_options initial_state
  = ({| browser := true; newPage_calls := 0; clock_reads := 0; open_pages := [];
        trace := [EvBrowserClose; EvLaunch] |},
     Throw "Request failed with status code 403").
Proof.
  apply (runScan_fetch_failure
           {| launch := Return tt;
              newPage := Samples.three_pages;
              browser_close := Return tt;
              axios_get := Throw "Request failed with status code 403";
              toISOString := λ _, "2024-01-01T00:00:00.000Z";
              writeFile := Return "scan-results/out.json" |}
           Samples.async_cfg Samples.async_options
           "Request failed with status code 403"); reflexivity.
Defined.

End LifecycleFacts.

(** ** The results of a batch *)

Section BatchFacts.
Import Scanner Notions.





End BatchFacts.

(** ** Batches: numbering, exclusivity and final states *)

Section TrackerFacts.
Import Scanner Server Notions Lifecycle.

Variable defaults : list ScanBatchRow → Z → ScanBatchRow.
Variable procedure : InsertCall → outcome Z.

Lemma foldl_max_ge (l : list Z) (a : Z) :
  a ≤ foldl Z.max a l ∧ ∀ x, x ∈ l → x ≤ foldl Z.max a l.
Proof.
  revert a. induction l as [|y l IH]; intros a; simpl.
  - split; [lia|]. intros x Hx. by apply elem_of_nil in Hx.
  - destruct (IH (Z.max a y)) as [H1 H2]. split; [lia|].
    intros x [->|Hx]%elem_of_cons; [lia|by apply H2].
Qed.

Lemma next_batch_number_above rows r :
  r ∈ rows → batch_number r < next_batch_number rows.
Proof.
  destruct rows as [|r0 rest]; [by intros ?%elem_of_nil|].
  unfold next_batch_number.
  destruct (foldl_max_ge (batch_number <$> rest) (batch_number r0)) as [H1 H2].
  intros [->|Hr]%elem_of_cons; [lia|].
  assert (batch_number r ≤ foldl Z.max (batch_number r0) (batch_number <$> rest)); [|lia].
  apply H2, list_elem_of_fmap. eauto.
Qed.

Lemma no_running_filter (rows : list ScanBatchRow) :
  (∀ r, r ∈ rows → status r ≠ "running") →
  filter (λ r, status r = "running") rows = [].
Proof.
  intros Hnone. destruct (filter _ rows) as [|r rest] eqn:E; [done|].
  assert (r ∈ filter (λ r, status r = "running") rows) as Hr by (rewrite E; left).
  apply list_elem_of_filter in Hr as [Hs Hr]. by destruct (Hnone r Hr).
Qed.

(** A batch that is created gets a number above that of every batch in
    the table (1 in an empty table), and the row added last holds the
    type, offset and size of the request, or their defaults. *)
Theorem scan_start_batch_number t body db :
  (∀ r, r ∈ scan_batches db → status r ≠ "running") →
  ∃ db' row scan,
    scan_start defaults t body db
    = (db', Return (Started "Scan started" (id row) (batch_number row)
                      (batch_offset row) (batch_limit row), Some scan))
    ∧ scan_batches db' = scan_batches db ++ [row]
    ∧ written db' = written db
    ∧ (∀ r, r ∈ scan_batches db → batch_number r < batch_number row)
    ∧ (scan_batches db = [] → batch_number row = 1)
    ∧ scan_type row = default "manual" (body_scanType body)
    ∧ batch_offset row = default 0 (body_offset body)
    ∧ batch_limit row = default 50 (body_batchSize body)
    ∧ scan = {| scan_batchId := id row;
                scan_offset := batch_offset row;
                scan_batchSize := batch_limit row;
                scan_pixelThreshold := default 50 (body_pixelThreshold body) |}.
Proof.
  intros Hnone. apply no_running_filter in Hnone as E.
  set (d := defaults (scan_batches db) t).
  set (row := {| id := id d;
                 batch_number := next_batch_number (scan_batches db);
                 scan_type := default "manual" (body_scanType body);
                 batch_offset := default 0 (body_offset body);
                 batch_limit := default 50 (body_batchSize body);
                 status := status d;
                 started_at := started_at d;
                 completed_at := completed_at d;
                 fonts_processed := fonts_processed d;
                 fonts_approved := fonts_approved d;
                 processing_notes := processing_notes d;
                 error_message := error_message d |}).
  exists {| scan_batches := scan_batches db ++ [row]; written := written db |}, row,
    {| scan_batchId := id row; scan_offset := batch_offset row;
       scan_batchSize := batch_limit row;
       scan_pixelThreshold := default 50 (body_pixelThreshold body) |}.
  split.
  { unfold scan_start, try_catch, mbind, M_bind. rewrite select_running_eq, E.
    reflexivity. }
  split; [done|]. split; [done|].
  split; [apply next_batch_number_above|].
  split; [|done]. intros H0. simpl. by rewrite H0.
Qed.


End TrackerFacts.

Section TrackerWitnesses.
Import Server Lifecycle.

Lemma scan_start_batch_number_witness :
  ∃ db' row scan,
    scan_start Samples.schema_defaults 1700000600000 Samples.incremental_body
      Samples.idle
    = (db', Return (Started "Scan started" (id row) (batch_number row)
                      (batch_offset row) (batch_limit row), Some scan))
    ∧ scan_batches db' = scan_batches Samples.idle ++ [row]
    ∧ written db' = written Samples.idle
    ∧ (∀ r, r ∈ scan_batches Samples.idle → batch_number r < batch_number row)
    ∧ (scan_batches Samples.idle = [] → batch_number row = 1)
    ∧ scan_type row = default "manual" (body_scanType Samples.incremental_body)
    ∧ batch_offset row = default 0 (body_offset Samples.incremental_body)
    ∧ batch_limit row = default 50 (body_batchSize Samples.incremental_body)
    ∧ scan = {| scan_batchId := id row;
                scan_offset := batch_offset row;
                scan_batchSize := batch_limit row;
                scan_pixelThreshold :=
                  default 50 (body_pixelThreshold Samples.incremental_body) |}.
Proof.
  apply (scan_start_batch_number Samples.schema_defaults 1700000600000 Samples.incremental_body Samples.idle).
  intros r Hr. by apply elem_of_nil in Hr.
Defined.


End TrackerWitnesses.

(** ** The asynchronous run, continued *)

Section AsyncFacts.
Import Scanner Server Notions Lifecycle.

Variable procedure : InsertCall → outcome Z.

Lemma scanFontsAsync_eq env t batchId offset batchSize pixelThreshold db :
  scanFontsAsync procedure env t batchId offset batchSize pixelThreshold db
  = match (runScan env
             (constructor {| opt_batchSize := Some batchSize;
                             opt_pixelThreshold := Some pixelThreshold |})
             {| run_offset := Some offset; run_limit := Some batchSize;
                run_saveToDisk := Some false |} initial_state).2 with
    | Throw m => update_batch batchId (failed_row t m) db
    | Return results =>
        match insert_results procedure ("batch-" +:+ pretty batchId) results 0 0 db with
        | (db1, Throw m) => update_batch batchId (failed_row t m) db1
        | (db1, Return (p, a)) => update_batch batchId (completed_row t p a) db1
        end
    end.
Proof.
  unfold scanFontsAsync, try_catch. unfold mbind at 1, M_bind at 1, lift.
  destruct (runScan env _ _ initial_state).2 as [m|results]; [done|].
  unfold mbind at 1, M_bind at 1.
  by destruct (insert_results procedure _ results 0 0 db) as [db1 [m|[p a]]].
Qed.


Lemma update_batch_eq batchId f db :
  update_batch batchId f db
  = ({| scan_batches := (λ r, if bool_decide (id r = batchId) then f r else r)
                          <$> scan_batches db;
        written := written db |}, Return tt).
Proof. reflexivity. Qed.




Lemma insert_results_refused info pre r post m :
  ∀ db p a,
    (∀ r', r' ∈ pre → unfailed r' → ∃ k, procedure (call_of info r') = Return k) →
    unfailed r →
    procedure (call_of info r) = Throw m →
    insert_results procedure info (pre ++ r :: post) p a db
    = ({| scan_batches := scan_batches db;
          written := written db ++ (call_of info <$> filter unfailed pre) |},
       Throw m).
Proof.
  induction pre as [|r0 pre IH]; intros db p a Hok Hr Hm.
  - simpl app. rewrite insert_results_unfailed by done.
    unfold mbind at 1, M_bind at 1, insertScanResult, try_catch.
    unfold mbind at 1, M_bind at 1, lift. fold (call_of info r). rewrite Hm. simpl.
    rewrite app_nil_r. by destruct db.
  - simpl app. rewrite filter_cons.
    destruct (decide (unfailed r0)) as [Hr0|Hr0].
    + rewrite insert_results_unfailed by done.
      destruct (Hok r0) as [k Hk]; [left|done|].
      unfold mbind at 1, M_bind at 1, insertScanResult, try_catch.
      unfold mbind at 1, M_bind at 1, lift. fold (call_of info r0). rewrite Hk. simpl.
      rewrite IH; [|intros r' ?; apply Hok; by right|done|done]. simpl.
      by rewrite <- app_assoc.
    + rewrite insert_results_failed by done.
      apply IH; [intros r' ?; apply Hok; by right|done|done].
Qed.

(** When the stored procedure refuses a result, the batch is marked
    [failed] with its message; the records written before it stay, and
    no later result is written. *)
Theorem scanFontsAsync_insert_refused env t batchId offset batchSize pixelThreshold db
    st pre r post m :
  runScan env
    (constructor {| opt_batchSize := Some batchSize;
                    opt_pixelThreshold := Some pixelThreshold |})
    {| run_offset := Some offset; run_limit := Some batchSize;
       run_saveToDisk := Some false |}
    initial_state = (st, Return (pre ++ r :: post)) →
  (∀ r', r' ∈ pre → unfailed r' →
     ∃ k, procedure (call_of ("batch-" +:+ pretty batchId) r') = Return k) →
  unfailed r →
  procedure (call_of ("batch-" +:+ pretty batchId) r) = Throw m →
  scanFontsAsync procedure env t batchId offset batchSize pixelThreshold db
  = ({| scan_batches := (λ r, if bool_decide (id r = batchId)
                              then failed_row t m r else r) <$> scan_batches db;
        written := written db
                   ++ (call_of ("batch-" +:+ pretty batchId) <$> filter unfailed pre) |},
     Return tt).
Proof.
  intros Hrun Hok Hr Hm. rewrite scanFontsAsync_eq, Hrun. simpl.
  by rewrite (insert_results_refused _ _ _ _ _ _ _ _ Hok Hr Hm).
Qed.

Lemma approved_among_unfailed (results : list ScanResult) :
  (length (filter (λ r, unfailed r ∧ approved r) results)
   ≤ length (filter unfailed results))%nat.
Proof.
  induction results as [|r results IH]; [done|].
  rewrite !filter_cons.
  destruct (decide (unfailed r)) as [Hr|Hr].
  - case_decide; simpl; lia.
  - by rewrite decide_False by (by intros [? _]).
Qed.

(** On completion the counts are ordered: the approved fonts are among
    the processed ones, which are among the results of the scan, and one
    record was written per processed font. *)
Theorem scanFontsAsync_counts env t batchId offset batchSize pixelThreshold db st results :
  runScan env
    (constructor {| opt_batchSize := Some batchSize;
                    opt_pixelThreshold := Some pixelThreshold |})
    {| run_offset := Some offset; run_limit := Some batchSize;
       run_saveToDisk := Some false |}
    initial_state = (st, Return results) →
  (∀ r, r ∈ results → unfailed r →
     ∃ k, procedure (call_of ("batch-" +:+ pretty batchId) r) = Return k) →
  Forall (λ row,
            id row = batchId →
            status row = "completed"
            ∧ 0 ≤ fonts_approved row ≤ fonts_processed row
            ∧ fonts_processed row ≤ Z.of_nat (length results)
            ∧ Z.of_nat (length (written
                  (scanFontsAsync procedure env t batchId offset batchSize
                     pixelThreshold db).1))
              = Z.of_nat (length (written db)) + fonts_processed row)
    (scan_batches
       (scanFontsAsync procedure env t batchId offset batchSize pixelThreshold db).1).
Proof.
  intros Hrun Hok.
  rewrite scanFontsAsync_eq, Hrun. simpl.
  rewrite (insert_results_ok procedure _ _ _ _ _ Hok), update_batch_eq. simpl.
  apply Forall_forall.
  intros row (r0 & -> & Hr0)%list_elem_of_fmap Hid.
  case_bool_decide as Hid0.
  - simpl. split; [done|].
    pose proof (length_filter unfailed results).
    pose proof (approved_among_unfailed results).
    rewrite length_app, length_fmap. lia.
  - done.
Qed.

End AsyncFacts.

Section AsyncWitnesses.
Import Scanner Server Notions Lifecycle.


Lemma scanFontsAsync_insert_refused_witness :
  scanFontsAsync Samples.procedure_refusing_C
    (Samples.env Samples.three_pages Samples.catalog) 1700000600000 7 0 50 50
    Samples.busy
  = ({| scan_batches :=
          (λ r, if bool_decide (id r = 7)
                then failed_row 1700000600000
                       "duplicate key value violates unique constraint" r
                else r) <$> scan_batches Samples.busy;
        written :=
          written Samples.busy
          ++ (call_of ("batch-" +:+ pretty 7)
                <$> filter unfailed
                      [Samples.result 0 "A" (Samples.page 160 100 Samples.wide);
                       Samples.result 1 "B" (Samples.page 110 100 Samples.narrow_a)]) |},
     Return tt).
Proof.
  apply (scanFontsAsync_insert_refused Samples.procedure_refusing_C
           (Samples.env Samples.three_pages Samples.catalog) 1700000600000 7 0 50 50
           Samples.busy
           (runScan (Samples.env Samples.three_pages Samples.catalog)
              Samples.async_cfg Samples.async_options initial_state).1
           [Samples.result 0 "A" (Samples.page 160 100 Samples.wide);
            Samples.result 1 "B" (Samples.page 110 100 Samples.narrow_a)]
           (Samples.result 2 "C" (Samples.page 170 100 Samples.wide)) []).
  - by vm_compute.
  - intros r' Hin _.
    apply elem_of_cons in Hin as [->|Hin]; [exists 1; by vm_compute|].
    apply elem_of_cons in Hin as [->|Hin]; [exists 1; by vm_compute|].
    by apply elem_of_nil in Hin.
  - by vm_compute.
  - by vm_compute.
Defined.

Lemma scanFontsAsync_counts_witness :
  Forall (λ row,
            id row = 7 →
            status row = "completed"
            ∧ 0 ≤ fonts_approved row ≤ fonts_processed row
            ∧ fonts_processed row
              ≤ Z.of_nat (length (Samples.scanned
                                    (Samples.env Samples.one_broken Samples.catalog)))
            ∧ Z.of_nat (length (written
                  (scanFontsAsync Samples.procedure_ok
                     (Samples.env Samples.one_broken Samples.catalog) 1700000600000
                     7 0 50 50 Samples.busy).1))
              = Z.of_nat (length (written Samples.busy)) + fonts_processed row)
    (scan_batches
       (scanFontsAsync Samples.procedure_ok
          (Samples.env Samples.one_broken Samples.catalog) 1700000600000 7 0 50 50
          Samples.busy).1).
Proof.
  apply (scanFontsAsync_counts Samples.procedure_ok
           (Samples.env Samples.one_broken Samples.catalog) 1700000600000 7 0 50 50
           Samples.busy
           (runScan (Samples.env Samples.one_broken Samples.catalog)
              Samples.async_cfg Samples.async_options initial_state).1
           (Samples.scanned (Samples.env Samples.one_broken Samples.catalog))).
  - by vm_compute.
  - intros r _ _. exists 1. reflexivity.
Defined.

End AsyncWitnesses.

(** ** The periodic trigger, continued *)

Section TriggerFacts.
Import Server.

Lemma foldl_max_elem (l : list Z) (a : Z) : foldl Z.max a l ∈ a :: l.
Proof.
  revert a. induction l as [|y l IH]; intros a; simpl; [left|].
  pose proof (IH (Z.max a y)) as [Hm|Hin]%elem_of_cons.
  - rewrite Hm. destruct (Z.max_spec a y) as [[_ ->]|[_ ->]]; [right; left|left].
  - right. by right.
Qed.

Lemma select_last_incremental_eq db :
  select_last_incremental db
  = (db, Return (match started_at <$> filter (λ r, scan_type r = "incremental")
                                         (scan_batches db) with
                 | [] => None
                 | t :: rest => Some (foldl Z.max t rest)
                 end)).
Proof. reflexivity. Qed.

Lemma scheduled_scan_silent t db :
  (scheduled_scan t db).2 = Return []
  ↔ ∃ last, (select_last_incremental db).2 = Return (Some last)
            ∧ (t - last) `div` day_ms < 14.
Proof.
  unfold scheduled_scan. unfold mbind at 1, M_bind at 1.
  rewrite select_last_incremental_eq. simpl.
  destruct (started_at <$> filter _ (scan_batches db)) as [|t0 rest]; simpl.
  - split; [|by intros (? & [=] & _)].
    unfold try_catch, mbind, M_bind. rewrite select_running_eq. simpl.
    by case_bool_decide.
  - destruct (Z.leb_spec 14 ((t - foldl Z.max t0 rest) `div` day_ms)) as [Hge|Hlt].
    + split; [|intros (? & [= <-] & ?); lia].
      unfold try_catch, mbind, M_bind. rewrite select_running_eq. simpl.
      by case_bool_decide.
    + split; [eauto|done].
Qed.

(** The callback of the schedule never changes the database, and it does
    nothing at all, not even look for a running batch, exactly when some
    incremental batch started less than 14 days (1 209 600 000 ms) before
    it fires. *)
Theorem scheduled_scan_interval t db :
  (scheduled_scan t db).1 = db
  ∧ ((scheduled_scan t db).2 = Return []
     ↔ ∃ r, r ∈ scan_batches db ∧ scan_type r = "incremental"
            ∧ t - started_at r < 1209600000).
Proof.
  split; [apply scheduled_scan_state|].
  rewrite scheduled_scan_silent, select_last_incremental_eq. simpl.
  assert (∀ x, x `div` day_ms < 14 ↔ x < 1209600000) as Hdiv.
  { intros x. unfold day_ms. split; intros H.
    - apply Z.nle_gt. intros Hge. apply Z.nle_gt in H. apply H.
      by apply Z.div_le_lower_bound.
    - by apply Z.div_lt_upper_bound. }
  split.
  - intros (last & Hlast & Hd). apply Hdiv in Hd.
    destruct (started_at <$> filter _ (scan_batches db)) as [|t0 rest] eqn:E; [done|].
    injection Hlast as <-.
    pose proof (foldl_max_elem rest t0) as Hin. rewrite <- E in Hin.
    apply list_elem_of_fmap in Hin as (r & Hr & Hin).
    apply list_elem_of_filter in Hin as [Htype Hin].
    exists r. rewrite <- Hr. done.
  - intros (r & Hr & Htype & Hd).
    assert (started_at r ∈ started_at <$> filter (λ r, scan_type r = "incremental")
                                            (scan_batches db)) as Hin.
    { apply list_elem_of_fmap. exists r. split; [done|].
      by apply list_elem_of_filter. }
    destruct (started_at <$> filter _ (scan_batches db)) as [|t0 rest]; 
      [by apply elem_of_nil in Hin|].
    eexists. split; [reflexivity|]. apply Hdiv.
    destruct (foldl_max_ge rest t0) as [H1 H2].
    apply elem_of_cons in Hin as [Heq|Hin]; [lia|].
    specialize (H2 _ Hin). lia.
Qed.

End TriggerFacts.

(** ** Scan status and the font list statement *)

Section ApiFacts.
Import Server Api.

Variable defaults : list ScanBatchRow → Z → ScanBatchRow.

Lemma scan_status_some i db :
  scan_status (Some i) db
  = (db, Return (match filter (λ r, id r = i) (scan_batches db) with
                 | [] => StatusNotFound "Scan batch not found"
                 | row :: _ => StatusOne row
                 end)).
Proof.
  unfold scan_status, select_status, try_catch, mbind, M_bind, get, mret, M_ret.
  by destruct (filter _ (scan_batches db)).
Qed.

(** Asked for one batch, the handler answers 404 exactly when no batch
    has that identifier, and otherwise a batch of the table with that
    identifier; it changes nothing. *)
Theorem scan_status_lookup i db :
  (scan_status (Some i) db).1 = db
  ∧ ((scan_status (Some i) db).2 = Return (StatusNotFound "Scan batch not found")
     ↔ ∀ r, r ∈ scan_batches db → id r ≠ i)
  ∧ ((∃ r, r ∈ scan_batches db ∧ id r = i) →
     ∃ row, (scan_status (Some i) db).2 = Return (StatusOne row)
            ∧ row ∈ scan_batches db ∧ id row = i).
Proof.
  rewrite scan_status_some. simpl. split; [done|].
  destruct (filter (λ r, id r = i) (scan_batches db)) as [|row rest] eqn:E.
  - split.
    + split; [|done]. intros _ r Hr Hid.
      assert (r ∈ filter (λ r, id r = i) (scan_batches db)) as Hin
        by by apply list_elem_of_filter.
      rewrite E in Hin. by apply elem_of_nil in Hin.
    + intros (r & Hr & Hid).
      assert (r ∈ filter (λ r, id r = i) (scan_batches db)) as Hin
        by by apply list_elem_of_filter.
      rewrite E in Hin. by apply elem_of_nil in Hin.
  - assert (row ∈ filter (λ r, id r = i) (scan_batches db)) as Hin
      by (rewrite E; left).
    apply list_elem_of_filter in Hin as [Hid Hin].
    split.
    + split; [done|]. intros Hnone. by destruct (Hnone row Hin).
    + intros _. by exists row.
Qed.

(** A batch that was just created, under an identifier no other batch
    has, is what the status of that identifier answers. *)
Theorem scan_status_after_start t body db :
  (∀ r, r ∈ scan_batches db → status r ≠ "running") →
  (∀ r, r ∈ scan_batches db → id r ≠ id (defaults (scan_batches db) t)) →
  ∃ db' row scan,
    scan_start defaults t body db
    = (db', Return (Started "Scan started" (id row) (batch_number row)
                      (batch_offset row) (batch_limit row), Some scan))
    ∧ scan_status (Some (id row)) db' = (db', Return (StatusOne row))
    ∧ status row = status (defaults (scan_batches db) t)
    ∧ scan_type row = default "manual" (body_scanType body).
Proof.
  intros Hnone Hfresh. apply no_running_filter in Hnone as E.
  set (d := defaults (scan_batches db) t).
  set (row := {| id := id d;
                 batch_number := next_batch_number (scan_batches db);
                 scan_type := default "manual" (body_scanType body);
                 batch_offset := default 0 (body_offset body);
                 batch_limit := default 50 (body_batchSize body);
                 status := status d;
                 started_at := started_at d;
                 completed_at := completed_at d;
                 fonts_processed := fonts_processed d;
                 fonts_approved := fonts_approved d;
                 processing_notes := processing_notes d;
                 error_message := error_message d |}).
  exists {| scan_batches := scan_batches db ++ [row]; written := written db |}, row,
    {| scan_batchId := id row; scan_offset := batch_offset row;
       scan_batchSize := batch_limit row;
       scan_pixelThreshold := default 50 (body_pixelThreshold body) |}.
  split.
  { unfold scan_start, try_catch, mbind, M_bind. rewrite select_running_eq, E.
    reflexivity. }
  split; [|done]. rewrite scan_status_some. simpl.
  rewrite filter_app.
  assert (filter (λ r, id r = id d) (scan_batches db) = []) as ->.
  { destruct (filter (λ r, id r = id d) (scan_batches db)) as [|r rest] eqn:E';
      [done|].
    assert (r ∈ filter (λ r, id r = id d) (scan_batches db)) as Hr
      by (rewrite E'; left).
    apply list_elem_of_filter in Hr as [Hid Hr]. by destruct (Hfresh r Hr). }
  simpl. by rewrite filter_cons_True.
Qed.

#[local] Instance newer_total : Total newer.
Proof. intros a b. unfold newer. lia. Qed.

#[local] Instance newer_trans : Transitive newer.
Proof. intros a b c. unfold newer. lia. Qed.

(** Asked for no batch in particular, the handler answers at most ten
    batches of the table, newest first, and every batch it leaves out
    started no later than each one it answers. *)
Theorem scan_status_recent db :
  ∃ rows rest,
    scan_status None db = (db, Return (StatusRecent rows))
    ∧ rows ++ rest ≡ₚ scan_batches db
    ∧ (length rows ≤ 10)%nat
    ∧ (length (scan_batches db) ≤ 10 → rest = [])%nat
    ∧ StronglySorted newer rows
    ∧ ∀ r r', r ∈ rows → r' ∈ rest → started_at r' ≤ started_at r.
Proof.
  exists (take 10 (merge_sort newer (scan_batches db))),
    (drop 10 (merge_sort newer (scan_batches db))).
  pose proof (StronglySorted_merge_sort newer (scan_batches db)) as Hsorted.
  pose proof (merge_sort_Permutation newer (scan_batches db)) as Hperm.
  rewrite <- (take_drop 10 (merge_sort newer (scan_batches db))) in Hsorted.
  split; [reflexivity|]. split; [by rewrite take_drop|].
  split; [rewrite length_take; lia|].
  split.
  { intros Hlen. apply drop_ge. by rewrite Hperm. }
  split; [by apply StronglySorted_app_1_l in Hsorted|].
  intros r r' Hr Hr'.
  by apply (StronglySorted_app_1_elem_of newer _ _ r r' Hsorted).
Qed.

Lemma placeholders_app p1 p2 : placeholders (p1 ++ p2) = placeholders p1 ++ placeholders p2.
Proof. unfold placeholders. apply omap_app. Qed.

Lemma texts_app p1 p2 : texts (p1 ++ p2) = texts p1 ++ texts p2.
Proof. unfold texts. apply omap_app. Qed.

Ltac in_list := apply list_elem_of_In; simpl; auto 10.

Lemma status_filter_literals approvalStatus :
  placeholders (status_filter approvalStatus) = []
  ∧ ∀ s, s ∈ texts (status_filter approvalStatus) → s ∈ where_literals.
Proof.
  unfold status_filter, where_literals.
  repeat case_match; (split; [done|]); intros s Hs; cbn in Hs;
    first [by apply elem_of_nil in Hs
          |apply list_elem_of_singleton in Hs; subst s; in_list].
Qed.

Lemma add_filter_well_numbered value text param acc :
  text ∈ where_literals →
  well_numbered acc →
  well_numbered (add_filter value text param acc).
Proof.
  intros Htext. destruct acc as [[n w] ps]. intros (Hn & Hp & Ht).
  unfold add_filter. destruct value as [v|]; [|done].
  destruct (truthy_str v); [|done].
  split; [|split].
  - rewrite length_app. simpl. lia.
  - rewrite placeholders_app, Hp, length_app, seq_app, fmap_app. simpl.
    do 2 f_equal. lia.
  - intros s. rewrite texts_app. simpl.
    intros [Hs|Hs]%elem_of_app; [by apply Ht|].
    apply list_elem_of_singleton in Hs. by subst s.
Qed.

(** The statement of the font list carries nothing of the request in
    its text: the column it sorts by is one of the four valid ones, the
    order is [ASC] or [DESC], the [WHERE] clause is made of the handler's
    own literals, and its placeholders are [$1], [$2], ... in order, one
    for each parameter passed with it. *)
Theorem build_fonts_statement_safe q :
  sortColumn (build_fonts_statement q) ∈ validSortColumns
  ∧ (order (build_fonts_statement q) = "ASC" ∨ order (build_fonts_statement q) = "DESC")
  ∧ (∀ s, s ∈ texts (whereClause (build_fonts_statement q)) → s ∈ where_literals)
  ∧ placeholders (whereClause (build_fonts_statement q)
                  ++ limitOffset (build_fonts_statement q))
    = Z.of_nat <$> seq 1 (length (queryParams (build_fonts_statement q))).
Proof.
  unfold build_fonts_statement.
  destruct (status_filter_literals (default "approved" (approvalStatus q))) as [Hp Ht].
  match goal with |- context [add_filter (search q) ?t2 ?f2
                                (add_filter (category q) ?t1 ?f1 ?a)] =>
    assert (well_numbered (add_filter (search q) t2 f2 (add_filter (category q) t1 f1 a)))
      as Hacc;
    [|destruct (add_filter (search q) t2 f2 (add_filter (category q) t1 f1 a))
        as [[n w] ps]]
  end.
  { apply add_filter_well_numbered; [unfold where_literals; in_list|].
    apply add_filter_well_numbered; [unfold where_literals; in_list|].
    split; [done|]. split.
    - unfold placeholders in *. simpl. exact Hp.
    - intros s. unfold texts in *. simpl.
      intros [->|Hs]%elem_of_cons; [unfold where_literals; in_list|by apply Ht]. }
  destruct Hacc as (Hn & Hpl & Htx). simpl.
  split; [case_bool_decide; [done|unfold validSortColumns; in_list]|].
  split; [case_match; auto|].
  split; [done|].
  rewrite placeholders_app, Hpl, length_app, seq_app, fmap_app. simpl.
  do 2 f_equal; [lia|]. f_equal. lia.
Qed.

End ApiFacts.

Section ApiWitnesses.
Import Server Api.

Lemma scan_status_after_start_witness :
  ∃ db' row scan,
    scan_start Samples.schema_defaults 1700000600000 Samples.incremental_body
      Samples.finished
    = (db', Return (Started "Scan started" (id row) (batch_number row)
                      (batch_offset row) (batch_limit row), Some scan))
    ∧ scan_status (Some (id row)) db' = (db', Return (StatusOne row))
    ∧ status row
      = status (Samples.schema_defaults (scan_batches Samples.finished) 1700000600000)
    ∧ scan_type row = default "manual" (body_scanType Samples.incremental_body).
Proof.
  apply (scan_status_after_start Samples.schema_defaults 1700000600000
           Samples.incremental_body Samples.finished).
  - intros r Hr. apply list_elem_of_singleton in Hr. by subst r.
  - intros r Hr. apply list_elem_of_singleton in Hr. by subst r.
Defined.

End ApiWitnesses.
